(** * video-backend: a shallow embedding of [src/index.js]

    The program is an Express application that downloads remote media,
    runs ffmpeg/ffprobe on it and publishes the result under [/files].
    This development embeds, in source order,

    - the JavaScript values that travel through the handlers (JSON bodies,
      header values) with the coercions the code relies on ([!x], [a || b],
      [Number(x)], [String(x)], template literals, property reads);
    - the helpers [getBaseUrl], [runFfmpeg], [runFfprobe], [downloadToTemp]
      and [makePublicPath] over an explicit world (file system, random
      source, trace of effects) and an environment of oracles for what lives
      outside the process (the network, the two engines, the URL parser);
    - the six route handlers and the middleware chain of the application.

    Numbers are rationals extended with NaN and the two infinities.  Where
    text becomes a Number ([Number(s)], [parseFloat], a JSON literal) the
    value is rounded to binary64, and [String(n)] prints the shortest
    decimal of a Number; [Math.round], [Math.floor] and [%] are exact on
    Numbers, and [/] is kept as the exact quotient, which the program
    floors at once wherever it divides. *)

From Stdlib Require Import ZArith QArith Qround String Ascii List Lia Lqa Bool.
From Stdlib Require Import DecimalString.
From stdpp Require Import base option strings gmap.
Import ListNotations.

Local Open Scope string_scope.
Local Open Scope Z_scope.

(* ===================================================================== *)
(** ** Strings *)
(* ===================================================================== *)

Module Str.

(** [Array.prototype.join] on strings. *)
Fixpoint join (sep : string) (l : list string) : string :=
  match l with
  | [] => ""
  | [x] => x
  | x :: rest => x ++ sep ++ join sep rest
  end.

Fixpoint rev_onto (s acc : string) : string :=
  match s with
  | EmptyString => acc
  | String c r => rev_onto r (String c acc)
  end.

Definition rev (s : string) : string := rev_onto s "".

Fixpoint repeat (c : ascii) (n : nat) : string :=
  match n with
  | O => ""
  | S k => String c (repeat c k)
  end.

(** [s.padStart(n, c)] for a one-character filler. *)
Definition pad_start (n : nat) (c : ascii) (s : string) : string :=
  repeat c (n - String.length s) ++ s.

(** ASCII lower-casing, as the router and the header table apply it. *)
Definition lower_ascii (c : ascii) : ascii :=
  let n := nat_of_ascii c in
  if ((65 <=? n)%nat && (n <=? 90)%nat)%bool then ascii_of_nat (n + 32) else c.

Fixpoint lower (s : string) : string :=
  match s with
  | EmptyString => ""
  | String c r => String (lower_ascii c) (lower r)
  end.

Fixpoint starts_with (p s : string) : bool :=
  match p, s with
  | EmptyString, _ => true
  | String a p', String b s' => (Ascii.eqb a b && starts_with p' s')%bool
  | String _ _, EmptyString => false
  end.

Fixpoint drop (n : nat) (s : string) : string :=
  match n, s with
  | O, _ => s
  | S k, String _ r => drop k r
  | S _, EmptyString => ""
  end.

Fixpoint contains (c : ascii) (s : string) : bool :=
  match s with
  | EmptyString => false
  | String a r => (Ascii.eqb a c || contains c r)%bool
  end.

(** [s.split(c)]: the fields between the occurrences of [c]. *)
Fixpoint split (c : ascii) (s : string) : list string :=
  match s with
  | EmptyString => [""]
  | String a r =>
      if Ascii.eqb a c then "" :: split c r
      else match split c r with
           | [] => [String a ""]
           | f :: fs => String a f :: fs
           end
  end.

End Str.

(* ===================================================================== *)
(** ** Numbers *)
(* ===================================================================== *)

Inductive number : Type :=
| NaN
| Infinity (negative : bool)
| Fin (q : Q).

Module Num.

Definition of_Z (z : Z) : number := Fin (inject_Z z).

Definition is_zero (q : Q) : bool := Qnum q =? 0.

(** ToBoolean on numbers: [NaN], [0] and [-0] are falsy. *)
Definition truthy (n : number) : bool :=
  match n with
  | NaN => false
  | Infinity _ => true
  | Fin q => negb (is_zero q)
  end.

Definition dec (z : Z) : string := NilZero.string_of_int (Z.to_int z).


(** *** The Number type: binary64

    A finite Number is a rational of the form [m * 2^p] with
    [|m| < 2^53] and [-1074 <= p <= 971].  [round64] is the rounding the
    language applies wherever a real becomes a Number (numeric literals in
    text, [Number(s)], [parseFloat], [JSON.parse]): to the nearest such
    rational, ties to the even [m], beyond the largest one to infinity. *)

(** [floor (log2 (a / b))] for positive [a] and [b]. *)
Definition ilog2 (a b : Z) : Z :=
  let e0 := Z.log2 a - Z.log2 b in
  let at_least :=
    if 0 <=? e0 then b * 2 ^ e0 <=? a else b <=? a * 2 ^ (- e0) in
  if at_least then e0 else e0 - 1.

(** [n / d] rounded to the nearest integer, ties to the even one, for
    [0 <= n] and [0 < d]. *)
Definition round_half_even (n d : Z) : Z :=
  let q := n / d in
  match 2 * (n mod d) ?= d with
  | Lt => q
  | Gt => q + 1
  | Eq => if Z.even q then q else q + 1
  end.

(** [m * 2^p] as a rational. *)
Definition scale2 (m p : Z) : Q :=
  if 0 <=? p then inject_Z (m * 2 ^ p)
  else Qmake m (Pos.pow 2 (Z.to_pos (- p))).

Definition round64 (q : Q) : number :=
  let a := Z.abs (Qnum q) in
  let b := Zpos (Qden q) in
  if a =? 0 then Fin 0
  else
    let e := ilog2 a b in
    let p := Z.max e (-1022) - 52 in
    let m := if 0 <=? p then round_half_even a (b * 2 ^ p)
             else round_half_even (a * 2 ^ (- p)) b in
    if ((0 <=? p) && (2 ^ 1024 <=? m * 2 ^ p))%bool
    then Infinity (Qnum q <? 0)
    else
      let r := scale2 (if Qnum q <? 0 then - m else m) p in
      if Qeq_bool r q then Fin q else Fin (Qred r).

(** The Number a numeric value stands for. *)
Definition normal (n : number) : number :=
  match n with
  | Fin q => round64 q
  | other => other
  end.

(** [m * 10^e] as a rational. *)
Definition scale10 (m e : Z) : Q :=
  if 0 <=? e then inject_Z (m * 10 ^ e)
  else Qmake m (Pos.pow 10 (Z.to_pos (- e))).

(** [floor (log10 (a / b))] for positive [a] and [b]. *)
Definition ilog10 (a b : Z) : Z :=
  let e0 := Z.of_nat (String.length (dec a))
            - Z.of_nat (String.length (dec b)) in
  if Qle_bool (scale10 1 e0) (Qmake a (Z.to_pos b)) then e0 else e0 - 1.

Definition same (n : number) (q : Q) : bool :=
  match n with Fin r => Qeq_bool r q | _ => false end.

(** Number::toString, step 5: the least [k] with a [k]-digit [s] such that
    [s * 10^(n-k)] is the Number [v]; of two such [s] the one nearer to
    [v].  The search looks at the two [k]-digit decimals around [v] for
    [k = 1, 2, ...]; the result is [s] with [n]. *)
Fixpoint shortest (fuel : nat) (k : Z) (n : Z) (v : Q) : Z * Z :=
  let t := (v / scale10 1 (n - k))%Q in
  let lo := Qfloor t in
  let hi := lo + 1 in
  let ok_lo := same (round64 (scale10 lo (n - k))) v in
  let ok_hi := same (round64 (scale10 hi (n - k))) v in
  let pick :=
    if (ok_lo && ok_hi)%bool then
      match (t - inject_Z lo ?= inject_Z hi - t)%Q with
      | Lt => Some lo
      | Gt => Some hi
      | Eq => Some (if Z.even lo then lo else hi)
      end
    else if ok_lo then Some lo
    else if ok_hi then Some hi
    else None in
  match pick with
  | Some s => (s, n - k)
  | None =>
      match fuel with
      | O => (lo, n - k)
      | S fuel' => shortest fuel' (k + 1) n v
      end
  end.

Fixpoint strip_zeros (s : Z) (e : Z) (fuel : nat) : Z * Z :=
  match fuel with
  | O => (s, e)
  | S fuel' =>
      if ((s mod 10 =? 0) && negb (s =? 0))%bool
      then strip_zeros (s / 10) (e + 1) fuel'
      else (s, e)
  end.

Fixpoint take (n : nat) (s : string) : string :=
  match n, s with
  | S k, String c r => String c (take k r)
  | _, _ => ""
  end.

(** Number::toString, steps 6 to 10, for a positive Number [v]. *)
Definition print (v : Q) : string :=
  let n0 := ilog10 (Qnum v) (Zpos (Qden v)) + 1 in
  let '(s0, e0) := shortest 17 1 n0 v in
  let '(s, e) := strip_zeros s0 e0 20 in
  let ds := dec s in
  let k := Z.of_nat (String.length ds) in
  let n := e + k in
  if ((k <=? n) && (n <=? 21))%bool then
    ds ++ Str.repeat "0" (Z.to_nat (n - k))
  else if ((0 <? n) && (n <=? 21))%bool then
    take (Z.to_nat n) ds ++ "." ++ Str.drop (Z.to_nat n) ds
  else if ((-6 <? n) && (n <=? 0))%bool then
    "0." ++ Str.repeat "0" (Z.to_nat (- n)) ++ ds
  else
    (if k =? 1 then ds else take 1 ds ++ "." ++ Str.drop 1 ds)
    ++ "e" ++ (if 0 <=? n - 1 then "+" else "-") ++ dec (Z.abs (n - 1)).

(** [String(n)].  A whole value up to 2^53 prints as its decimal digits;
    any other value prints the shortest decimal that reads back as the
    same Number, in exponent notation from 10^21 on and below 10^-6. *)
Definition to_string (n : number) : string :=
  match n with
  | NaN => "NaN"
  | Infinity false => "Infinity"
  | Infinity true => "-Infinity"
  | Fin q =>
      let q' := Qred q in
      let a := Qnum q' in
      let b := Zpos (Qden q') in
      if ((b =? 1) && (Z.abs a <=? 9007199254740992))%bool then dec a
      else
        match round64 q' with
        | Fin r =>
            if is_zero r then "0"
            else (if a <? 0 then "-" else "")
                 ++ print (Qmake (Z.abs (Qnum r)) (Qden r))
        | Infinity true => "-Infinity"
        | Infinity false => "Infinity"
        | NaN => "NaN"
        end
  end.

(** [Math.round]: the nearest integer, halves towards +infinity. *)
Definition round (n : number) : number :=
  match n with
  | Fin q => of_Z (Qfloor (q + (1 # 2)))
  | other => other
  end.

(** [Math.floor]. *)
Definition floor (n : number) : number :=
  match n with
  | Fin q => of_Z (Qfloor q)
  | other => other
  end.

Definition q_neg (q : Q) : bool := Qnum q <? 0.

(** [x / y], as the exact quotient. *)
Definition div (x y : number) : number :=
  match x, y with
  | NaN, _ | _, NaN => NaN
  | Infinity _, Infinity _ => NaN
  | Infinity s, Fin q => Infinity (xorb s (q_neg q))
  | Fin _, Infinity _ => Fin 0
  | Fin a, Fin b =>
      if is_zero b then (if is_zero a then NaN else Infinity (q_neg a))
      else Fin (a / b)
  end.

(** Truncation towards zero of a rational. *)
Definition q_trunc (q : Q) : Z := Z.quot (Qnum q) (Zpos (Qden q)).

(** [x % y]: the remainder has the sign of the dividend. *)
Definition rem (x y : number) : number :=
  match x, y with
  | NaN, _ | _, NaN => NaN
  | Infinity _, _ => NaN
  | Fin a, Infinity _ => Fin a
  | Fin a, Fin b =>
      if is_zero b then NaN
      else Fin (a - b * inject_Z (q_trunc (a / b)))
  end.

End Num.

(* ===================================================================== *)
(** ** Reading numbers out of strings *)
(* ===================================================================== *)

Module Parse.

Definition is_digit (c : ascii) : bool :=
  let n := nat_of_ascii c in ((48 <=? n)%nat && (n <=? 57)%nat)%bool.

(** Strings are sequences of bytes, text being in UTF-8.  The members of
    StrWhiteSpaceChar (WhiteSpace and LineTerminator) are, on one byte, TAB,
    LF, VT, FF, CR and SP; *)
Definition is_space (c : ascii) : bool :=
  let n := nat_of_ascii c in
  (((9 <=? n)%nat && (n <=? 13)%nat) || (n =? 32)%nat)%bool.

(** on two bytes, U+00A0 ([C2 A0]); *)
Definition is_space2 (c1 c2 : ascii) : bool :=
  ((nat_of_ascii c1 =? 194)%nat && (nat_of_ascii c2 =? 160)%nat)%bool.

(** on three bytes, U+1680 ([E1 9A 80]), U+2000 to U+200A ([E2 80 80] to
    [E2 80 8A]), U+2028 and U+2029 ([E2 80 A8], [E2 80 A9]), U+202F
    ([E2 80 AF]), U+205F ([E2 81 9F]), U+3000 ([E3 80 80]) and U+FEFF
    ([EF BB BF]). *)
Definition is_space3 (c1 c2 c3 : ascii) : bool :=
  let a := nat_of_ascii c1 in
  let b := nat_of_ascii c2 in
  let c := nat_of_ascii c3 in
  (((a =? 225) && (b =? 154) && (c =? 128))
   || ((a =? 226) && (b =? 128)
       && (((128 <=? c) && (c <=? 138)) || (c =? 168) || (c =? 169)
           || (c =? 175)))
   || ((a =? 226) && (b =? 129) && (c =? 159))
   || ((a =? 227) && (b =? 128) && (c =? 128))
   || ((a =? 239) && (b =? 187) && (c =? 191)))%nat%bool.

(** [s] without the white space at its head.  With [backwards], [s] is
    read as a reversed string: the bytes of a character come last first. *)
Fixpoint trim_head (backwards : bool) (s : string) : string :=
  match s with
  | String c r =>
      if is_space c then trim_head backwards r
      else
        match r with
        | String c1 r1 =>
            if (if backwards then is_space2 c1 c else is_space2 c c1)
            then trim_head backwards r1
            else
              match r1 with
              | String c2 r2 =>
                  if (if backwards then is_space3 c2 c1 c
                      else is_space3 c c1 c2)
                  then trim_head backwards r2
                  else s
              | EmptyString => s
              end
        | EmptyString => s
        end
  | EmptyString => ""
  end.

Definition trim_left (s : string) : string := trim_head false s.

Definition trim (s : string) : string :=
  Str.rev (trim_head true (Str.rev (trim_left s))).

Fixpoint span_digits (s : string) : string * string :=
  match s with
  | String c r =>
      if is_digit c then let (d, rest) := span_digits r in (String c d, rest)
      else ("", s)
  | EmptyString => ("", "")
  end.

Definition digit_val (c : ascii) : Z := Z.of_nat (nat_of_ascii c) - 48.

Fixpoint digits_value (acc : Z) (s : string) : Z :=
  match s with
  | String c r => digits_value (10 * acc + digit_val c) r
  | EmptyString => acc
  end.

Definition is_empty (s : string) : bool :=
  match s with EmptyString => true | _ => false end.

(** [m * 10^e] as a rational. *)
Definition scale (m e : Z) : Q :=
  if 0 <=? e then inject_Z (m * 10 ^ e)
  else Qmake m (Pos.pow 10 (Z.to_pos (- e))).

(** ExponentPart: [e] or [E], an optional sign, at least one digit.  An
    incomplete exponent is not consumed. *)
Definition parse_exponent (s : string) : Z * string :=
  match s with
  | String c r =>
      if (Ascii.eqb c "e" || Ascii.eqb c "E")%bool then
        let '(sgn, r1) :=
          match r with
          | String "+" r' => (1, r')
          | String "-" r' => (-1, r')
          | _ => (1, r)
          end in
        let (ds, r2) := span_digits r1 in
        if is_empty ds then (0, s) else (sgn * digits_value 0 ds, r2)
      else (0, s)
  | EmptyString => (0, s)
  end.

(** The Number of the decimal [m * 10^e] for [0 <= m].  A [k]-digit [m]
    gives a value in [[10^(e+k-1), 10^(e+k))]: below 10^-400 it rounds to
    zero and from 10^400 on to infinity, which is decided on the exponent
    without the power being computed. *)
Definition decimal (m e : Z) : number :=
  let k := Z.of_nat (String.length (Num.dec m)) in
  if m =? 0 then Fin 0
  else if e + k <? -400 then Fin 0
  else if 400 <? e + k then Infinity false
  else Num.round64 (scale m e).

(** The longest StrUnsignedDecimalLiteral at the head of [s], with what
    follows it; its mathematical value becomes a Number by rounding. *)
Definition parse_unsigned (s : string) : option (number * string) :=
  if Str.starts_with "Infinity" s then Some (Infinity false, Str.drop 8 s)
  else
    let (ip, r1) := span_digits s in
    let '(fp, r2) :=
      match r1 with
      | String "." r' => let (fp, r'') := span_digits r' in
                         if (is_empty ip && is_empty fp)%bool then ("", r1)
                         else (fp, r'')
      | _ => ("", r1)
      end in
    if (is_empty ip && is_empty fp)%bool then None
    else
      let (e, r3) := parse_exponent r2 in
      Some (decimal (digits_value 0 (ip ++ fp))
                    (e - Z.of_nat (String.length fp)), r3).

Definition negate (n : number) : number :=
  match n with
  | NaN => NaN
  | Infinity s => Infinity (negb s)
  | Fin q => Fin (- q)
  end.

Definition parse_signed (s : string) : option (number * string) :=
  match s with
  | String "+" r => parse_unsigned r
  | String "-" r =>
      match parse_unsigned r with
      | Some (n, rest) => Some (negate n, rest)
      | None => None
      end
  | _ => parse_unsigned s
  end.

Definition radix_digit (base : Z) (c : ascii) : option Z :=
  let n := Z.of_nat (nat_of_ascii c) in
  let v := if ((48 <=? n) && (n <=? 57))%bool then n - 48
           else if ((97 <=? n) && (n <=? 102))%bool then n - 87
           else if ((65 <=? n) && (n <=? 70))%bool then n - 55
           else base in
  if v <? base then Some v else None.

Fixpoint radix_value (base acc : Z) (s : string) : option Z :=
  match s with
  | EmptyString => Some acc
  | String c r =>
      match radix_digit base c with
      | Some v => radix_value base (base * acc + v) r
      | None => None
      end
  end.

(** NonDecimalIntegerLiteral: [0x], [0o], [0b] and at least one digit. *)
Definition radix_literal (s : string) : option number :=
  match s with
  | String "0" (String p (String c r)) =>
      let base := if (Ascii.eqb p "x" || Ascii.eqb p "X")%bool then 16
                  else if (Ascii.eqb p "o" || Ascii.eqb p "O")%bool then 8
                  else if (Ascii.eqb p "b" || Ascii.eqb p "B")%bool then 2
                  else 0 in
      if base =? 0 then None
      else match radix_value base 0 (String c r) with
           | Some v => Some (Num.round64 (inject_Z v))
           | None => None
           end
  | _ => None
  end.

(** StringToNumber, the conversion [Number(s)] applies to a string. *)
Definition string_to_number (s : string) : number :=
  let t := trim s in
  if is_empty t then Fin 0
  else match radix_literal t with
       | Some n => n
       | None =>
           match parse_signed t with
           | Some (n, EmptyString) => n
           | _ => NaN
           end
       end.

(** [parseFloat(s)]: the longest numeric prefix after leading space. *)
Definition parse_float (s : string) : number :=
  match parse_signed (trim_left s) with
  | Some (n, _) => n
  | None => NaN
  end.

End Parse.

(* ===================================================================== *)
(** ** Values *)
(* ===================================================================== *)

(** What [JSON.parse] produces, plus [undefined].  An object is the list of
    its own properties; the first binding of a name is the one read.  A
    number is given by the rational its text denotes; the Number the
    program holds is [Num.normal] of it, which is what every coercion
    below reads. *)
#[warnings="-register-all"]
Inductive value : Type :=
| VUndefined
| VNull
| VBool (b : bool)
| VNum (n : number)
| VStr (s : string)
| VArr (items : list value)
| VObj (fields : list (string * value)).

(** What a [throw] carries.  The handlers never inspect it. *)
Inductive thrown : Type :=
| TypeError
| InvalidUrl
| RequestFailed
| EngineFailed
| ProbeUnreadable.

Module Js.

(** ToBoolean. *)
Definition truthy (v : value) : bool :=
  match v with
  | VUndefined | VNull => false
  | VBool b => b
  | VNum n => Num.truthy (Num.normal n)
  | VStr s => negb (Parse.is_empty s)
  | VArr _ | VObj _ => true
  end.

(** [a || b]. *)
Definition or (a b : value) : value := if truthy a then a else b.

(** ToString, as [String(x)] and template literals apply it, where it
    returns (see [convertible]). *)
Fixpoint to_string (v : value) : string :=
  match v with
  | VUndefined => "undefined"
  | VNull => "null"
  | VBool true => "true"
  | VBool false => "false"
  | VNum n => Num.to_string n
  | VStr s => s
  | VArr items =>
      Str.join ","
        (List.map (fun x => match x with
                            | VUndefined | VNull => ""
                            | _ => to_string x
                            end) items)
  | VObj _ => "[object Object]"
  end.

(** ToNumber, as [Number(x)] applies it, where it returns. *)
Definition to_number (v : value) : number :=
  match v with
  | VUndefined => NaN
  | VNull => Fin 0
  | VBool true => Fin 1
  | VBool false => Fin 0
  | VNum n => Num.normal n
  | VStr s => Parse.string_to_number s
  | VArr _ => Parse.string_to_number (to_string v)
  | VObj _ => NaN
  end.

(** Whether ToPrimitive succeeds on [v].  The members of an object made
    by [JSON.parse] cannot be called, so one named [toString] hides the
    inherited method and leaves the conversion without a result: it
    throws.  An array converts through [join], that is through its
    elements. *)
Fixpoint convertible (v : value) : bool :=
  match v with
  | VObj fields =>
      negb (List.existsb (fun f => String.eqb (fst f) "toString") fields)
  | VArr items => List.forallb convertible items
  | _ => true
  end.

(** [String(v)] and [Number(v)] with their exception. *)
Definition as_string (v : value) : thrown + string :=
  if convertible v then inr (to_string v) else inl TypeError.

Definition as_number (v : value) : thrown + number :=
  if convertible v then inr (to_number v) else inl TypeError.

Fixpoint assoc (k : string) (fields : list (string * value)) : value :=
  match fields with
  | [] => VUndefined
  | (k', v) :: rest => if String.eqb k k' then v else assoc k rest
  end.

(** [undefined] and [null], the two values without properties. *)
Definition nullish (v : value) : bool :=
  match v with VUndefined | VNull => true | _ => false end.

(** The value of [v.k] when [v] has properties, for the names the
    handlers read. *)
Definition prop (v : value) (k : string) : value :=
  match v with
  | VObj fields => assoc k fields
  | VArr items =>
      if String.eqb k "length"
      then VNum (Num.of_Z (Z.of_nat (List.length items)))
      else VUndefined
  | VStr s =>
      if String.eqb k "length"
      then VNum (Num.of_Z (Z.of_nat (String.length s)))
      else VUndefined
  | _ => VUndefined
  end.

(** [v.k]: reading a property of [undefined] or [null] throws. *)
Definition get (v : value) (k : string) : thrown + value :=
  if nullish v then inl TypeError else inr (prop v k).

(** [Array.isArray]. *)
Definition is_array (v : value) : bool :=
  match v with VArr _ => true | _ => false end.

(** The elements of an array (none for anything else). *)
Definition items (v : value) : list value :=
  match v with VArr l => l | _ => [] end.

(** [a[i]] for an array [a]; out of range reads [undefined]. *)
Definition index (l : list value) (i : nat) : value :=
  List.nth i l VUndefined.

End Js.

(* ===================================================================== *)
(** ** Paths *)
(* ===================================================================== *)

Module Path.

(** [path.join(dir, name)] for a normalised directory other than the root
    (as [__dirname] is where the program is installed) and a name of one
    segment (no [/], not [.] or [..]), where the result is the two joined
    by a separator.  On other names [path.join] goes on to normalise ([.]
    and [..] segments, doubled separators); that step is left out, and
    statements about paths made from text of the caller assume a name of
    one segment. *)
Definition join (dir name : string) : string := dir ++ "/" ++ name.

(** The last run of characters other than [/]. *)
Definition basename (p : string) : string :=
  List.last (List.filter (fun seg => negb (Parse.is_empty seg))
                         (Str.split "/" p)) "".

(** The suffix that starts at the last dot, if there is a dot. *)
Fixpoint last_dot (s : string) : option string :=
  match s with
  | EmptyString => None
  | String c r =>
      match last_dot r with
      | Some e => Some e
      | None => if Ascii.eqb c "." then Some s else None
      end
  end.

(** [path.extname]: from the last dot of the base name on; empty when
    there is no dot, when the only dot leads the name, or for [..]. *)
Definition extname (p : string) : string :=
  let b := basename p in
  match last_dot b with
  | None => ""
  | Some e =>
      if (String.length e =? String.length b)%nat then ""
      else if String.eqb b ".." then ""
      else e
  end.

End Path.

(* ===================================================================== *)
(** ** The process, its surroundings and its effects *)
(* ===================================================================== *)

(** Lines 11-15: what the process reads at start-up. *)
Record config : Type := {
  dirname : string;               (* __dirname *)
  env_API_KEY : option string     (* process.env.API_KEY *)
}.

Definition API_KEY (c : config) : string :=
  match env_API_KEY c with
  | Some k => if Parse.is_empty k then "local-dev-key-123" else k
  | None => "local-dev-key-123"
  end.

Definition PUBLIC_DIR (c : config) : string := Path.join (dirname c) "public".
Definition TMP_DIR (c : config) : string := Path.join (dirname c) "tmp".

Abbreviation files := (gmap string string).

(** What [execFile('ffprobe', ...)] calls back with: an error, or a stdout,
    given here by what [JSON.parse] makes of it ([None] when it throws). *)
Inductive probe_output : Type :=
| ProbeError
| ProbeStdout (json : option value).

(** Everything outside the process. *)
Record env : Type := {
  (* the n-th [crypto.randomBytes(8).toString('hex')] of the run *)
  random_hex : nat -> string;
  (* [new URL(s).pathname]; [None] when the constructor throws *)
  url_pathname : string -> option string;
  (* the body axios streams for a GET; [None] when the request fails *)
  http_get : string -> option string;
  (* ffmpeg: whether it exits with 0, and the files it leaves behind *)
  ffmpeg : files -> list string -> bool * files;
  (* ffprobe on the given argument vector *)
  ffprobe : files -> list string -> probe_output
}.

Inductive event : Type :=
| OpenedTemp (path : string)              (* fs.createWriteStream *)
| Requested (url : string)                (* axios GET *)
| Stored (path : string)                  (* the download reached the disk *)
| WroteManifest (path content : string)   (* fsp.writeFile *)
| AllocatedPublic (abs rel : string)      (* makePublicPath *)
| RanFfmpeg (args : list string) (ok : bool)    (* ok: exit status 0 *)
| RanFfprobe (args : list string) (ok : bool).

Record world : Type := {
  disk : files;
  drawn : nat;             (* random ids handed out so far *)
  trace : list event       (* oldest first *)
}.

(** Computations of the handlers: they read and change the world and either
    return or throw. *)
Definition M (A : Type) : Type := world -> (thrown + A) * world.

Definition ret {A} (a : A) : M A := fun w => (inr a, w).

Definition throw {A} (e : thrown) : M A := fun w => (inl e, w).

Definition bind {A B} (m : M A) (k : A -> M B) : M B :=
  fun w => match m w with
           | (inl e, w') => (inl e, w')
           | (inr a, w') => k a w'
           end.

Notation "x <- m ;; k" := (bind m (fun x => k))
  (at level 100, m at next level, right associativity).

(** [try { body } catch (err) { handler }]. *)
Definition try_catch {A} (body : M A) (handler : thrown -> M A) : M A :=
  fun w => match body w with
           | (inl e, w') => handler e w'
           | ok => ok
           end.

Definition lift {A} (r : thrown + A) : M A :=
  match r with inl e => throw e | inr a => ret a end.

Definition emit (e : event) : M unit :=
  fun w => (inr tt, {| disk := disk w; drawn := drawn w;
                       trace := trace w ++ [e] |}).

Definition write_file (path content : string) : M unit :=
  fun w => (inr tt, {| disk := <[path := content]> (disk w);
                       drawn := drawn w; trace := trace w |}).

(* ===================================================================== *)
(** ** Requests and responses *)
(* ===================================================================== *)

(** What [express.json({ limit: '20mb' })] makes of the request body: the
    value it stores in [req.body], or the status it fails with (400 for a
    malformed body, 413 for one over the limit). *)
Inductive body_parse : Type :=
| Parsed (body : value)
| Rejected (status : Z).

Record request : Type := {
  method : string;                  (* upper case, as Node reports it *)
  path : string;                    (* req.path, without the query *)
  headers : gmap string string;     (* req.headers, names in lower case *)
  protocol : string;                (* req.protocol *)
  payload : body_parse
}.

Inductive content : Type :=
| Json (v : value)          (* res.json(v) *)
| File (data : string)      (* a file sent by express.static *)
| Bare                      (* the headers alone, for a HEAD *)
| Moved (location : string) (* a redirect of express.static *)
| Page.                     (* a reply of Express itself *)

Record response : Type := {
  status : Z;
  sent : content
}.

(** [res.json(v)] and [res.status(n).json(v)]. *)
Definition json (v : value) : response := {| status := 200; sent := Json v |}.
Definition status_json (n : Z) (v : value) : response :=
  {| status := n; sent := Json v |}.

Definition error_body (msg : string) : value := VObj [("error", VStr msg)].

(** [req.headers[name]] and [req.header(name)], [req.get(name)]. *)
Definition header (req : request) (name : string) : value :=
  match headers req !! Str.lower name with
  | Some v => VStr v
  | None => VUndefined
  end.

(** [req.body] once the body parser has run. *)
Definition body (req : request) : value :=
  match payload req with
  | Parsed v => v
  | Rejected _ => VUndefined
  end.

(* ===================================================================== *)
(** ** Helpers (lines 35-102) *)
(* ===================================================================== *)

Section Server.

Variable cfg : config.
Variable E : env.

(** [crypto.randomBytes(8).toString('hex')]. *)
Definition random_id : M string :=
  fun w => (inr (random_hex E (drawn w)),
            {| disk := disk w; drawn := S (drawn w); trace := trace w |}).

(** Lines 35-39. *)
Definition getBaseUrl (req : request) : string :=
  let proto := Js.or (header req "x-forwarded-proto") (VStr (protocol req)) in
  let host := Js.or (header req "x-forwarded-host") (header req "host") in
  Js.to_string proto ++ "://" ++ Js.to_string host.

(** Lines 41-51: the promise rejects when [execFile] reports an error. *)
Definition runFfmpeg (args : list string) : M unit :=
  fun w =>
    let (ok, disk') := ffmpeg E (disk w) args in
    let w' := {| disk := disk'; drawn := drawn w;
                 trace := trace w ++ [RanFfmpeg args ok] |} in
    if ok then (inr tt, w') else (inl EngineFailed, w').

(** Lines 53-74: the promise rejects when [execFile] reports an error,
    when the output does not parse, or when it has no [format]. *)
Definition runFfprobe (filePath : string) : M number :=
  let args := ["-v"; "quiet"; "-print_format"; "json"; "-show_format";
               filePath] in
  fun w =>
    let out := ffprobe E (disk w) args in
    let ran ok := {| disk := disk w; drawn := drawn w;
                     trace := trace w ++ [RanFfprobe args ok] |} in
    match out with
    | ProbeError => (inl EngineFailed, ran false)
    | ProbeStdout None => (inl ProbeUnreadable, ran true)
    | ProbeStdout (Some data) =>
        (format <- lift (Js.get data "format") ;;
         duration <- lift (Js.get format "duration") ;;
         ret (Parse.parse_float
                (Js.to_string (Js.or duration (VStr "0"))))) (ran true)
    end.

(** Lines 76-93.  The write stream is opened before the request is made.
    The outcomes are those of the URL constructor and of the request.  The
    local file is taken to open and to take the data: a stream that fails
    to open (a name the file system refuses) has no listener for its error
    during the request of line 82, which stops the process instead of
    rejecting the promise, and that outcome has no counterpart in [M]. *)
Definition downloadToTemp (url : value) (prefix : string) : M string :=
  id <- random_id ;;
  match url_pathname E (Js.to_string url) with
  | None => throw InvalidUrl
  | Some pathname =>
      let ext := Js.to_string
                   (Js.or (VStr (Path.extname pathname)) (VStr ".bin")) in
      let tempPath := Path.join (TMP_DIR cfg) (prefix ++ "-" ++ id ++ ext) in
      _ <- emit (OpenedTemp tempPath) ;;
      _ <- write_file tempPath "" ;;
      _ <- emit (Requested (Js.to_string url)) ;;
      match http_get E (Js.to_string url) with
      | None => throw RequestFailed
      | Some data =>
          _ <- write_file tempPath data ;;
          _ <- emit (Stored tempPath) ;;
          ret tempPath
      end
  end.

(** Lines 95-102: the pair [(abs, rel)]. *)
Definition makePublicPath (prefix ext : string) : M (string * string) :=
  id <- random_id ;;
  let fileName := prefix ++ "-" ++ id ++ ext in
  let abs := Path.join (PUBLIC_DIR cfg) fileName in
  let rel := "/files/" ++ fileName in
  _ <- emit (AllocatedPublic abs rel) ;;
  ret (abs, rel).

(* =================================================================== *)
(** ** Handlers (lines 104-320) *)
(* =================================================================== *)

(** [Number(x) || d]. *)
Definition or_default (n d : number) : number :=
  if Num.truthy n then n else d.

Definition number_or (x : value) (d : number) : number :=
  or_default (Js.to_number x) d.

(** Lines 119-123. *)
Definition image_filter (fps : number) : string :=
  Str.join ","
    [ "zoompan=z='min(zoom+0.0008,1.3)':d=" ++ Num.to_string fps
        ++ ":x='iw/2-(iw/zoom/2)':y='ih/2-(ih/zoom/2)'";
      "scale=1080:1920";
      "framerate=" ++ Num.to_string fps ].

(** Lines 125-133. *)
Definition image_args (imagePath : string) (videoLength fps : number)
    (outPath : string) : list string :=
  [ "-loop"; "1";
    "-i"; imagePath;
    "-t"; Num.to_string videoLength;
    "-vf"; image_filter fps;
    "-c:v"; "libx264";
    "-pix_fmt"; "yuv420p";
    outPath ].

(** 1) image -> motion video (lines 105-148). *)
Definition image_convert_video (req : request) : M response :=
  try_catch
    (image_url <- lift (Js.get (body req) "image_url") ;;
     length <- lift (Js.get (body req) "length") ;;
     frame_rate <- lift (Js.get (body req) "frame_rate") ;;
     zoom_speed <- lift (Js.get (body req) "zoom_speed") ;;
     id <- lift (Js.get (body req) "id") ;;
     if negb (Js.truthy image_url) then
       ret (status_json 400 (error_body "image_url is required"))
     else
       length_number <- lift (Js.as_number length) ;;
       let videoLength := or_default length_number (Num.of_Z 20) in
       rate_number <- lift (Js.as_number frame_rate) ;;
       let fps := or_default rate_number (Num.of_Z 25) in
       imagePath <- downloadToTemp image_url "image" ;;
       out <- makePublicPath "scene" ".mp4" ;;
       let (outPath, relPath) := out : string * string in
       _ <- runFfmpeg (image_args imagePath videoLength fps outPath) ;;
       let baseUrl := getBaseUrl req in
       let fileUrl := baseUrl ++ relPath in
       ret (json (VObj [("response", VStr fileUrl);
                        ("id", Js.or id VNull)])))
    (fun _ => ret (status_json 500
                     (error_body "Failed to create video from image"))).

Definition two (z : number) : string :=
  Str.pad_start 2 "0" (Num.to_string z).

(** Lines 161-165. *)
Definition format_duration (duration : number) : string :=
  let totalSeconds := Num.round duration in
  let h := two (Num.floor (Num.div totalSeconds (Num.of_Z 3600))) in
  let m := two (Num.floor (Num.div (Num.rem totalSeconds (Num.of_Z 3600))
                                   (Num.of_Z 60))) in
  let s := two (Num.rem totalSeconds (Num.of_Z 60)) in
  h ++ ":" ++ m ++ ":" ++ s.

(** 2) media metadata (lines 151-175). *)
Definition media_metadata (req : request) : M response :=
  try_catch
    (media_url <- lift (Js.get (body req) "media_url") ;;
     if negb (Js.truthy media_url) then
       ret (status_json 400 (error_body "media_url is required"))
     else
       audioPath <- downloadToTemp media_url "audio-meta" ;;
       duration <- runFfprobe audioPath ;;
       ret (json (VObj [("duration", VNum duration);
                        ("duration_formatted",
                         VStr (format_duration duration))])))
    (fun _ => ret (status_json 500
                     (error_body "Failed to get media metadata"))).

(** Lines 188-194.  The values [start] and [end] reach the engine as the
    strings the process layer makes of them. *)
Definition trim_args (start end_ : value) (videoPath outPath : string)
    : list string :=
  [ "-ss"; Js.to_string (Js.or start (VStr "00:00:00")) ]
  ++ (if Js.truthy end_ then ["-to"; Js.to_string end_] else [])
  ++ [ "-i"; videoPath; "-c"; "copy"; outPath ].

(** 3) trim video (lines 178-208). *)
Definition video_trim (req : request) : M response :=
  try_catch
    (video_url <- lift (Js.get (body req) "video_url") ;;
     start <- lift (Js.get (body req) "start") ;;
     end_ <- lift (Js.get (body req) "end") ;;
     if negb (Js.truthy video_url) then
       ret (status_json 400 (error_body "video_url is required"))
     else
       videoPath <- downloadToTemp video_url "trim-in" ;;
       out <- makePublicPath "trim-out" ".mp4" ;;
       let (outPath, relPath) := out : string * string in
       _ <- runFfmpeg (trim_args start end_ videoPath outPath) ;;
       let baseUrl := getBaseUrl req in
       let fileUrl := baseUrl ++ relPath in
       ret (json (VObj [("response", VStr fileUrl)])))
    (fun _ => ret (status_json 500 (error_body "Failed to trim video"))).

(** Lines 228-237. *)
Definition compose_args (videoPath audioPath outPath : string)
    : list string :=
  [ "-i"; videoPath;
    "-i"; audioPath;
    "-map"; "0:v:0";
    "-map"; "1:a:0";
    "-c:v"; "copy";
    "-c:a"; "aac";
    "-shortest";
    outPath ].

(** 4) compose video + audio (lines 211-251). *)
Definition ffmpeg_compose (req : request) : M response :=
  try_catch
    (inputs <- lift (Js.get (body req) "inputs") ;;
     if (negb (Js.is_array inputs)
         || (List.length (Js.items inputs) <? 2)%nat)%bool then
       ret (status_json 400 (error_body "inputs[video, audio] required"))
     else
       videoInput <- lift (Js.get (Js.index (Js.items inputs) 0)
                                  "file_url") ;;
       audioInput <- lift (Js.get (Js.index (Js.items inputs) 1)
                                  "file_url") ;;
       if (negb (Js.truthy videoInput) || negb (Js.truthy audioInput))%bool
       then ret (status_json 400 (error_body "file_url missing in inputs"))
       else
         videoPath <- downloadToTemp videoInput "compose-video" ;;
         audioPath <- downloadToTemp audioInput "compose-audio" ;;
         out <- makePublicPath "compose-out" ".mp4" ;;
         let (outPath, relPath) := out : string * string in
         _ <- runFfmpeg (compose_args videoPath audioPath outPath) ;;
         let baseUrl := getBaseUrl req in
         let fileUrl := baseUrl ++ relPath in
         ret (json (VObj [("response", VStr fileUrl)])))
    (fun _ => ret (status_json 500
                     (error_body "Failed to compose audio+video"))).

Definition newline_char : ascii := ascii_of_nat 10.
Definition newline : string := String newline_char "".

(** [p.replace(/'/g, "'\\''")]: every quote becomes the four characters
    quote, backslash, quote, quote. *)
Fixpoint escape_quotes (p : string) : string :=
  match p with
  | EmptyString => ""
  | String c r =>
      if Ascii.eqb c "'" then "'\''" ++ escape_quotes r
      else String c (escape_quotes r)
  end.

Definition manifest_line (p : string) : string :=
  "file '" ++ escape_quotes p ++ "'".

(** Line 275. *)
Definition listContent (localPaths : list string) : string :=
  Str.join newline (List.map manifest_line localPaths).

(** Lines 263-269: the loop over [video_urls], [localPaths] being the
    paths pushed so far. *)
Fixpoint fetch_each (items : list value) (localPaths : list string)
    : M (list string) :=
  match items with
  | [] => ret localPaths
  | item :: rest =>
      video_url <- lift (Js.get item "video_url") ;;
      let url := Js.or video_url item in
      if negb (Js.truthy url) then fetch_each rest localPaths
      else
        p <- downloadToTemp url "concat" ;;
        fetch_each rest (localPaths ++ [p])
  end.

(** Lines 280-286. *)
Definition concat_args (tempListPath outPath : string) : list string :=
  [ "-f"; "concat";
    "-safe"; "0";
    "-i"; tempListPath;
    "-c"; "copy";
    outPath ].

(** 5) concatenate scenes (lines 254-301). *)
Definition video_concatenate (req : request) : M response :=
  try_catch
    (video_urls <- lift (Js.get (body req) "video_urls") ;;
     id <- lift (Js.get (body req) "id") ;;
     if (negb (Js.is_array video_urls)
         || (List.length (Js.items video_urls) =? 0)%nat)%bool then
       ret (status_json 400
              (error_body "video_urls must be non-empty array"))
     else
       hex <- random_id ;;
       let tempListPath :=
         Path.join (TMP_DIR cfg) ("concat-" ++ hex ++ ".txt") in
       localPaths <- fetch_each (Js.items video_urls) [] ;;
       if (List.length localPaths =? 0)%nat then
         ret (status_json 400 (error_body "No valid video URLs"))
       else
         _ <- emit (WroteManifest tempListPath (listContent localPaths)) ;;
         _ <- write_file tempListPath (listContent localPaths) ;;
         prefix <- (if Js.truthy id
                    then text <- lift (Js.as_string id) ;;
                         ret ("concat-" ++ text)
                    else ret "concat-out") ;;
         out <- makePublicPath prefix ".mp4" ;;
         let (outPath, relPath) := out : string * string in
         _ <- runFfmpeg (concat_args tempListPath outPath) ;;
         let baseUrl := getBaseUrl req in
         let fileUrl := baseUrl ++ relPath in
         ret (json (VObj [("response", VStr fileUrl);
                          ("id", Js.or id VNull)])))
    (fun _ => ret (status_json 500
                     (error_body "Failed to concatenate videos"))).

(** 6) caption stub (lines 304-320). *)
Definition video_caption (req : request) : M response :=
  try_catch
    (video_url <- lift (Js.get (body req) "video_url") ;;
     id <- lift (Js.get (body req) "id") ;;
     if negb (Js.truthy video_url) then
       ret (status_json 400 (error_body "video_url is required"))
     else
       ret (json (VObj [("response", video_url);
                        ("id", Js.or id VNull);
                        ("note",
                         VStr "Captioning stub: extend later if needed.")])))
    (fun _ => ret (status_json 500 (error_body "Failed in caption stub"))).

(** Lines 322-324. *)
Definition root (req : request) : M response :=
  ret (json (VObj [("status", VStr "ok");
                   ("message", VStr "Video backend running")])).

(* =================================================================== *)
(** ** The application (lines 20-33 and the route table) *)
(* =================================================================== *)

(** The job kinds, one per POST route. *)
Inductive kind : Type :=
| ImageToVideo | MediaMetadata | VideoTrim | Compose | Concatenate | Caption.

Definition route_of (k : kind) : string :=
  match k with
  | ImageToVideo => "/v1/image/convert/video"
  | MediaMetadata => "/v1/media/metadata"
  | VideoTrim => "/v1/video/trim"
  | Compose => "/v1/ffmpeg/compose"
  | Concatenate => "/v1/video/concatenate"
  | Caption => "/v1/video/caption"
  end.

Definition handler_of (k : kind) : request -> M response :=
  match k with
  | ImageToVideo => image_convert_video
  | MediaMetadata => media_metadata
  | VideoTrim => video_trim
  | Compose => ffmpeg_compose
  | Concatenate => video_concatenate
  | Caption => video_caption
  end.

Definition kinds : list kind :=
  [ImageToVideo; MediaMetadata; VideoTrim; Compose; Concatenate; Caption].

(** Express matches a route path without regard to case and with an
    optional trailing slash. *)
Definition route_match (pattern p : string) : bool :=
  let l := Str.lower p in
  (String.eqb l pattern
   || String.eqb l (if String.eqb pattern "/" then "" else pattern ++ "/"))%bool.

(** Whether [p] lies under the mount point [/files]. *)
Definition under_files (p : string) : bool :=
  let l := Str.lower p in
  (String.eqb l "/files" || Str.starts_with "/files/" l)%bool.

(** A file name [express.static] looks up as it stands: not empty, not a
    dot file, no directory part, no percent escape. *)
Definition plain_name (n : string) : bool :=
  (negb (Parse.is_empty n) && negb (Str.starts_with "." n)
   && negb (Str.contains "/" n) && negb (Str.contains "%" n))%bool.

(** Line 24: [app.use('/files', express.static(PUBLIC_DIR))].  It answers
    GET and HEAD for what it finds and hands everything else on.  Only
    plain names are looked up: the decoding of percent escapes, the
    descent into sub-directories and the normalisation of the path are
    left out, as are conditional and range requests; a path under
    [/files] that is not a plain name is handed on here, which the program
    does only when it finds no file for it. *)
Definition serve_static (req : request) (w : world) : option response :=
  if (under_files (path req)
      && (String.eqb (method req) "GET" || String.eqb (method req) "HEAD"))%bool
  then
    let rest := Str.drop 6 (path req) in
    if Parse.is_empty rest then
      Some {| status := 301; sent := Moved (path req ++ "/") |}
    else
      let name := Str.drop 1 rest in
      if plain_name name then
        match disk w !! Path.join (PUBLIC_DIR cfg) name with
        | Some data =>
            Some {| status := 200;
                    sent := if String.eqb (method req) "GET"
                            then File data else Bare |}
        | None => None
        end
      else None
  else None.

(** Lines 27-33: the test of the middleware, [true] when it calls
    [next()]. *)
Definition key_accepted (req : request) : bool :=
  let key := header req "x-api-key" in
  negb (negb (Js.truthy key)
        || negb (match key with
                 | VStr k => String.eqb k (API_KEY cfg)
                 | _ => false
                 end)).

Definition unauthorized : response :=
  status_json 401 (error_body "Unauthorized").

Definition method_match (verb m : string) : bool :=
  (String.eqb m verb
   || (String.eqb verb "GET" && String.eqb m "HEAD"))%bool.

Definition routes : list (string * string * (request -> M response)) :=
  List.map (fun k => ("POST", route_of k, handler_of k)) kinds
  ++ [("GET", "/", root)].

Fixpoint dispatch (table : list (string * string * (request -> M response)))
    (req : request) : option (request -> M response) :=
  match table with
  | [] => None
  | (verb, pattern, h) :: rest =>
      if (method_match verb (method req)
          && route_match pattern (path req))%bool
      then Some h else dispatch rest req
  end.

(** The router: the first matching route runs; OPTIONS on a known path
    is answered by Express; anything else is a 404. *)
Definition router (req : request) (w : world) : response * world :=
  match dispatch routes req with
  | Some h =>
      match h req w with
      | (inr r, w') => (r, w')
      | (inl _, w') => ({| status := 500; sent := Page |}, w')
      end
  | None =>
      if (String.eqb (method req) "OPTIONS"
          && List.existsb (fun r => route_match (snd (fst r)) (path req))
                          routes)%bool
      then ({| status := 200; sent := Page |}, w)
      else ({| status := 404; sent := Page |}, w)
  end.

(** The middleware chain in the order lines 20-33 mount it (the request
    logger of line 21 only writes to the console and is left out). *)
Definition app (req : request) (w : world) : response * world :=
  match payload req with
  | Rejected code => ({| status := code; sent := Page |}, w)
  | Parsed _ =>
      match serve_static req w with
      | Some r => (r, w)
      | None =>
          if key_accepted req then router req w
          else (unauthorized, w)
      end
  end.

End Server.

(* ===================================================================== *)
(** ** A concrete world to run the handlers in *)
(* ===================================================================== *)

Module Demo.

Definition cfg : config := {| dirname := "/app"; env_API_KEY := Some "s3cret" |}.

(** The path of an http(s) URL: what follows the host, up to [?] or [#]. *)
Fixpoint until_query (s : string) : string :=
  match s with
  | EmptyString => ""
  | String c r =>
      if (Ascii.eqb c "?" || Ascii.eqb c "#")%bool then ""
      else String c (until_query r)
  end.

Fixpoint from_slash (s : string) : string :=
  match s with
  | EmptyString => "/"
  | String c r => if Ascii.eqb c "/" then s else from_slash r
  end.

Definition pathname (s : string) : option string :=
  if Str.starts_with "http://" s
  then Some (until_query (from_slash (Str.drop 7 s)))
  else if Str.starts_with "https://" s
  then Some (until_query (from_slash (Str.drop 8 s)))
  else None.

Definition hex16 (n : nat) : string :=
  Str.pad_start 16 "0" (Num.dec (Z.of_nat n)).

(** ffmpeg leaves its product at the last argument. *)
Definition produce (ok : bool) (d : files) (args : list string)
    : bool * files :=
  (ok, <[List.last args "" := "video"]> d).

Definition probe (duration : value) (d : files) (args : list string)
    : probe_output :=
  ProbeStdout (Some (VObj [("format", VObj [("duration", duration)])])).

Definition E (engine_ok : bool) (duration : value) : env :=
  {| random_hex := hex16;
     url_pathname := pathname;
     http_get := fun _ => Some "bytes";
     ffmpeg := produce engine_ok;
     ffprobe := probe duration |}.

Definition w0 : world := {| disk := ∅; drawn := 0; trace := [] |}.

Definition post (p : string) (key : option string) (b : body_parse)
    : request :=
  {| method := "POST"; path := p;
     headers := match key with
                | Some k => {[ "x-api-key" := k; "host" := "api.test" ]}
                | None => {[ "host" := "api.test" ]}
                end;
     protocol := "http";
     payload := b |}.

End Demo.


(* ===================================================================== *)
(** ** Vocabulary of the specification *)
(* ===================================================================== *)

(** *** Runs of a job *)

Definition engine (e : event) : bool :=
  match e with RanFfmpeg _ _ | RanFfprobe _ _ => true | _ => false end.

(** An engine invocation that failed: non-zero exit or spawn failure. *)
Definition engine_failed (e : event) : bool :=
  match e with RanFfmpeg _ false | RanFfprobe _ false => true | _ => false end.

(** Effects among which no engine ran. *)
Definition calm (evs : list event) : Prop :=
  List.Forall (fun e => engine e = false) evs.

(** The message of the [catch] block of each handler. *)
Definition failure_message (k : kind) : string :=
  match k with
  | ImageToVideo => "Failed to create video from image"
  | MediaMetadata => "Failed to get media metadata"
  | VideoTrim => "Failed to trim video"
  | Compose => "Failed to compose audio+video"
  | Concatenate => "Failed to concatenate videos"
  | Caption => "Failed in caption stub"
  end.

(** The field whose absence the first test of each handler rejects. *)
Definition required_field (k : kind) : string :=
  match k with
  | ImageToVideo => "image_url"
  | MediaMetadata => "media_url"
  | VideoTrim => "video_url"
  | Compose => "inputs"
  | Concatenate => "video_urls"
  | Caption => "video_url"
  end.

Definition probe_args (p : string) : list string :=
  ["-v"; "quiet"; "-print_format"; "json"; "-show_format"; p].

(** The argument vector each kind hands to its engine, as a function of the
    request body. *)
Definition built_for (k : kind) (b : value) (args : list string) : Prop :=
  match k with
  | ImageToVideo =>
      exists p out,
        args = image_args p
                 (number_or (Js.prop b "length") (Num.of_Z 20))
                 (number_or (Js.prop b "frame_rate") (Num.of_Z 25)) out
  | MediaMetadata => exists p, args = probe_args p
  | VideoTrim =>
      exists p out,
        args = trim_args (Js.prop b "start") (Js.prop b "end") p out
  | Compose => exists v a out, args = compose_args v a out
  | Concatenate => exists l out, args = concat_args l out
  | Caption => False
  end.

Definition engine_event (k : kind) (args : list string) (ok : bool) : event :=
  match k with
  | MediaMetadata => RanFfprobe args ok
  | _ => RanFfmpeg args ok
  end.

(** The kinds that end with a Public Artifact. *)
Definition publishes (k : kind) : bool :=
  match k with
  | ImageToVideo | VideoTrim | Compose | Concatenate => true
  | MediaMetadata | Caption => false
  end.

(** The [response] member of a JSON reply, [undefined] when there is none:
    for the publishing kinds, the URL of the artifact. *)
Definition advertised (r : response) : value :=
  match sent r with
  | Json v => Js.prop v "response"
  | _ => VUndefined
  end.

(** The ways a job can go: the reply and the effects it leaves, oldest
    first. *)
Inductive run (k : kind) (req : request) : response -> list event -> Prop :=
| run_invalid msg :
    run k req (status_json 400 (error_body msg)) []
| run_thrown evs :
    calm evs ->
    run k req (status_json 500 (error_body (failure_message k))) evs
| run_engine_failed pre args :
    calm pre -> built_for k (body req) args ->
    run k req (status_json 500 (error_body (failure_message k)))
        (pre ++ [engine_event k args false])%list
| run_published pre abs rel args more :
    publishes k = true -> calm pre -> built_for k (body req) args ->
    run k req
        (json (VObj (("response", VStr (getBaseUrl req ++ rel)) :: more)))
        (pre ++ [AllocatedPublic abs rel; RanFfmpeg args true])%list
| run_probe_unusable pre args :
    k = MediaMetadata -> calm pre -> built_for k (body req) args ->
    run k req (status_json 500 (error_body (failure_message k)))
        (pre ++ [RanFfprobe args true])%list
| run_probed pre args d :
    k = MediaMetadata -> calm pre -> built_for k (body req) args ->
    run k req (json (VObj [("duration", VNum d);
                           ("duration_formatted", VStr (format_duration d))]))
        (pre ++ [RanFfprobe args true])%list
| run_echo more :
    k = Caption ->
    run k req
        (json (VObj (("response", Js.prop (body req) "video_url") :: more)))
        [].

(** *** The manifest *)

(** The quoting rule in the words of the specification: a quote closes the
    quote, inserts an escaped quote and reopens the quote. *)
Definition quote_char (c : ascii) : string :=
  if Ascii.eqb c "'" then "'\''" else String c "".

Fixpoint quote_chars (p : string) : string :=
  match p with
  | EmptyString => ""
  | String c r => quote_char c ++ quote_chars r
  end.

Definition single_quoted (p : string) : string := "'" ++ quote_chars p ++ "'".

(** A line of the manifest: the directive [file] and the quoted path. *)
Definition manifest_entry (p : string) : string := "file " ++ single_quoted p.

(** The reading side of the rule: between quotes every character stands
    for itself up to the closing quote; outside, a backslash makes the next
    character stand for itself and a quote opens. *)
Fixpoint read_word (inside : bool) (s : string) : option string :=
  match s with
  | EmptyString => if inside then None else Some ""
  | String c r =>
      if inside then
        if Ascii.eqb c "'" then read_word false r
        else option_map (String c) (read_word true r)
      else if Ascii.eqb c "'" then read_word true r
      else if Ascii.eqb c "\" then
        match r with
        | String d r' => option_map (String d) (read_word false r')
        | EmptyString => None
        end
      else option_map (String c) (read_word false r)
  end.

Definition read_entry (line : string) : option string :=
  if Str.starts_with "file " line then read_word false (Str.drop 5 line)
  else None.

(** *** Durations *)




(** *** The externally reachable address *)

(** A header that is present with a value. *)
Definition supplied (req : request) (name : string) : option string :=
  match headers req !! name with
  | Some v => if Parse.is_empty v then None else Some v
  | None => None
  end.

(** Scheme and host as a caller behind the proxy sees them. *)
Definition scheme (req : request) : string :=
  default (protocol req) (supplied req "x-forwarded-proto").

Definition host (req : request) : string :=
  default (Js.to_string (header req "host")) (supplied req "x-forwarded-host").

(** The same with "present" read as "sent", whatever the value. *)
Definition scheme_if_sent (req : request) : string :=
  default (protocol req) (headers req !! "x-forwarded-proto").

Definition host_if_sent (req : request) : string :=
  default (Js.to_string (header req "host")) (headers req !! "x-forwarded-host").

(** *** Defaults *)

(** The field values the specification lists as falling back to the
    default: omitted, zero, [null], the empty string, a string that is not
    a number. *)
Inductive falls_back : value -> Prop :=
| fb_omitted : falls_back VUndefined
| fb_zero q : (q == 0)%Q -> falls_back (VNum (Fin q))
| fb_null : falls_back VNull
| fb_empty : falls_back (VStr "")
| fb_not_numeric s : Parse.string_to_number s = NaN -> falls_back (VStr s).

(** A request with another body. *)
Definition with_body (req : request) (b : value) : request :=
  {| method := method req; path := path req; headers := headers req;
     protocol := protocol req; payload := Parsed b |}.

(** *** Entries of a concatenation *)

(** What an entry resolves to (line 265): its [video_url], or failing that
    the entry itself. *)
Definition entry_url (item : value) : value :=
  Js.or (Js.prop item "video_url") item.

(** The entries that resolve to a value, in the order of the array. *)
Definition resolved (items : list value) : list value :=
  List.filter Js.truthy (List.map entry_url items).





(** Fetching every URL of a list, in order. *)
Fixpoint fetch_all (cfg : config) (E : env) (urls : list value)
    (localPaths : list string) : M (list string) :=
  match urls with
  | [] => ret localPaths
  | url :: rest =>
      p <- downloadToTemp cfg E url "concat" ;;
      fetch_all cfg E rest (localPaths ++ [p])
  end.

(** The world after the random name of the manifest has been drawn. *)
Definition after_draw (w : world) : world :=
  {| disk := disk w; drawn := S (drawn w); trace := trace w |}.

(** *** Requests for a published file *)



(** *** Checks by enumeration *)




(* ===================================================================== *)
(** ** Sample requests *)
(* ===================================================================== *)

Module Sample.

Definition E : env := Demo.E true VNull.

(** The three paths of a request whose second file name carries a quote. *)
Definition paths : list string :=
  [ "/app/tmp/concat-00f1.mp4"; "/app/tmp/concat-00f2.m'4";
    "/app/tmp/concat-00f3.mp4" ].


Definition trim_body : value :=
  VObj [("video_url", VStr "https://cdn.test/a.mp4");
        ("start", VStr "00:00:05"); ("end", VStr "00:00:10")].




Definition compose_without_inputs : request :=
  Demo.post "/v1/ffmpeg/compose" (Some "s3cret")
    (Parsed (VObj [("id", VStr "job-7")])).

(** The first input has no [file_url]; the second is [null]. *)
Definition compose_file_url_missing : request :=
  Demo.post "/v1/ffmpeg/compose" (Some "s3cret")
    (Parsed (VObj [("inputs", VArr [VObj []; VNull])])).

Definition compose_null_input : request :=
  Demo.post "/v1/ffmpeg/compose" (Some "s3cret")
    (Parsed (VObj [("inputs",
                    VArr [VNull;
                          VObj [("file_url",
                                 VStr "https://cdn.test/voice.mp3")]])])).

Definition concatenate_null_entry : request :=
  Demo.post "/v1/video/concatenate" (Some "s3cret")
    (Parsed (VObj [("video_urls",
                    VArr [VNull; VStr "https://cdn.test/a.mp4"])])).


Definition mixed_entries : list value :=
  [ VStr ""; VObj [("video_url", VStr "https://cdn.test/a.mp4")];
    VNum (Fin 0); VStr "https://cdn.test/b.mp4" ].


Definition concatenate_nothing_usable : request :=
  Demo.post "/v1/video/concatenate" (Some "s3cret")
    (Parsed (VObj [("video_urls",
                    VArr [VStr ""; VNum (Fin 0); VBool false])])).

(** A trim request that arrives through a proxy which sends an empty
    forwarded-protocol header and the public host name. *)
Definition behind_proxy : request :=
  {| method := "POST"; path := "/v1/video/trim";
     headers := {[ "x-api-key" := "s3cret"; "host" := "10.0.0.7:8080";
                   "x-forwarded-proto" := "";
                   "x-forwarded-host" := "media.example.com" ]};
     protocol := "http";
     payload := Parsed trim_body |}.

Definition image_body (more : list (string * value)) : value :=
  VObj (("image_url", VStr "https://cdn.test/still.png") :: more).

Definition image_request (more : list (string * value)) : request :=
  Demo.post "/v1/image/convert/video" (Some "s3cret")
    (Parsed (image_body more)).


(** The same job run to its end, with an engine that works and with one
    that fails. *)
Definition trim_outcome : (thrown + response) * world :=
  handler_of Demo.cfg E VideoTrim behind_proxy Demo.w0.

Definition trim_failure : (thrown + response) * world :=
  handler_of Demo.cfg (Demo.E false VNull) VideoTrim behind_proxy Demo.w0.

(** An image request that leaves both numeric fields to their defaults. *)
Definition image_defaults : request :=
  image_request [("length", VStr "abc"); ("frame_rate", VNull)].

Definition image_outcome : (thrown + response) * world :=
  image_convert_video Demo.cfg E image_defaults Demo.w0.

Definition image_defaults_args : list string :=
  image_args "/app/tmp/image-0000000000000000.png" (Num.of_Z 20)
    (Num.of_Z 25) "/app/public/scene-0000000000000001.mp4".

End Sample.


(* ===================================================================== *)
(** ** Further vocabulary *)
(* ===================================================================== *)

(** *** Temporary resources *)

(** The extension [downloadToTemp] gives the file of a URL (line 78). *)
Definition temp_ext (E : env) (url : value) : string :=
  match url_pathname E (Js.to_string url) with
  | Some pathname =>
      Js.to_string (Js.or (VStr (Path.extname pathname)) (VStr ".bin"))
  | None => ".bin"
  end.

(** The name of the file for the [n]-th random id (line 79). *)
Definition temp_name (E : env) (prefix : string) (n : nat) (url : value)
    : string :=
  prefix ++ "-" ++ random_hex E n ++ temp_ext E url.

Definition temp_path (cfg : config) (E : env) (prefix : string) (n : nat)
    (url : value) : string :=
  Path.join (TMP_DIR cfg) (temp_name E prefix n url).

(** The paths of a list of URLs fetched one after the other, the first one
    with the [n]-th random id. *)
Fixpoint numbered_paths (cfg : config) (E : env) (n : nat)
    (urls : list value) : list string :=
  match urls with
  | [] => []
  | url :: rest =>
      temp_path cfg E "concat" n url :: numbered_paths cfg E (S n) rest
  end.

(** *** Published artifacts *)



(** The name [makePublicPath] made with the last random id drawn. *)
Definition artifact_name (E : env) (prefix : string) (w' : world) : string :=
  prefix ++ "-" ++ random_hex E (Nat.pred (drawn w')) ++ ".mp4".


(** The first word of the name of a concatenation (line 278). *)
Definition concat_prefix (id : value) : string :=
  if Js.truthy id then "concat-" ++ Js.to_string id else "concat-out".

(** The [id] member of a JSON reply. *)
Definition echoed_id (r : response) : value :=
  match sent r with
  | Json v => Js.prop v "id"
  | _ => VUndefined
  end.

(** *** Quotes *)

Fixpoint quotes (p : string) : nat :=
  match p with
  | EmptyString => 0
  | String c r => ((if Ascii.eqb c "'" then 1 else 0) + quotes r)%nat
  end.

(** *** More sample requests *)

Module More.

Definition status_probe : request :=
  {| method := "GET"; path := "/v1/video/trim";
     headers := {[ "x-api-key" := "s3cret"; "host" := "api.test" ]};
     protocol := "http"; payload := Parsed Sample.trim_body |}.

Definition caption : request :=
  Demo.post "/v1/video/caption" (Some "s3cret")
    (Parsed (VObj [("video_url", VStr "https://cdn.test/a.mp4");
                   ("id", VNum (Fin 0))])).

Definition trim_open_end : request :=
  Demo.post "/v1/video/trim" (Some "s3cret")
    (Parsed (VObj [("video_url", VStr "https://cdn.test/a.mp4")])).

Definition trim_open_end_args : list string :=
  [ "-ss"; "00:00:00"; "-i"; "/app/tmp/trim-in-0000000000000000.mp4";
    "-c"; "copy"; "/app/public/trim-out-0000000000000001.mp4" ].

(** An environment whose network is down. *)
Definition offline : env :=
  {| random_hex := Demo.hex16;
     url_pathname := Demo.pathname;
     http_get := fun _ => None;
     ffmpeg := Demo.produce true;
     ffprobe := Demo.probe VNull |}.

Definition image_outcome : (thrown + response) * world :=
  handler_of Demo.cfg Sample.E ImageToVideo (Sample.image_request [])
    Demo.w0.


Definition compose_body (more : list value) : value :=
  VObj [("inputs",
         VArr (VObj [("file_url", VStr "https://cdn.test/a.mp4")]
               :: VObj [("file_url", VStr "https://cdn.test/voice.mp3")]
               :: more))].

Definition compose_request : request :=
  Demo.post "/v1/ffmpeg/compose" (Some "s3cret") (Parsed (compose_body [])).

Definition concatenate_named : request :=
  Demo.post "/v1/video/concatenate" (Some "s3cret")
    (Parsed (VObj [("video_urls", VArr Sample.mixed_entries);
                   ("id", VStr "reel")])).

Definition concatenate_outcome : (thrown + response) * world :=
  video_concatenate Demo.cfg Sample.E concatenate_named Demo.w0.

Definition image_numeric : request :=
  Sample.image_request [("length", VStr " 7.50 "); ("frame_rate", VNum (Fin 30))].

Definition image_numeric_args : list string :=
  image_args "/app/tmp/image-0000000000000000.png" (Fin (750 # 100))
    (Fin 30) "/app/public/scene-0000000000000001.mp4".

End More.


(* ===================================================================== *)
(** * Properties *)
(* ===================================================================== *)

(** ** The model at work *)

Example number_of_null : Js.to_number VNull = Fin 0.
Proof. reflexivity. Qed.
Example number_of_blank : Js.to_number (VStr "  ") = Fin 0.
Proof. reflexivity. Qed.
Example number_of_text : Js.to_number (VStr "abc") = NaN.
Proof. reflexivity. Qed.
Example number_of_decimal : Js.to_number (VStr " 2.50e1 ") = Fin (250 # 10).
Proof. reflexivity. Qed.
Example number_of_hex : Js.to_number (VStr "0x1F") = Fin 31.
Proof. reflexivity. Qed.
Example number_of_partial : Js.to_number (VStr "12px") = NaN.
Proof. reflexivity. Qed.
Example float_of_partial : Parse.parse_float "12.5px" = Fin (125 # 10).
Proof. reflexivity. Qed.
Example string_of_half : Num.to_string (Fin (250 # 100)) = "2.5".
Proof. reflexivity. Qed.
Example string_of_neg : Num.to_string (Fin (-7 # 1)) = "-7".
Proof. reflexivity. Qed.
Example string_of_list :
  Js.to_string (VArr [VNum (Fin 1); VNull; VStr "a"]) = "1,,a".
Proof. reflexivity. Qed.
Example extname_mp4 : Path.extname "/media/clip.final.mp4" = ".mp4".
Proof. reflexivity. Qed.
Example extname_none : Path.extname "/media/clip" = "".
Proof. reflexivity. Qed.
Example extname_hidden : Path.extname "/media/.profile" = "".
Proof. reflexivity. Qed.
Example extname_quote : Path.extname "/a/it's.m'4" = ".m'4".
Proof. reflexivity. Qed.

(** ** Strings and lists *)

Lemma append_empty_l (s : string) : "" ++ s = s.
Proof. reflexivity. Qed.

Lemma append_cons (c : ascii) (a b : string) :
  String c a ++ b = String c (a ++ b).
Proof. reflexivity. Qed.


Lemma contains_app (c : ascii) (a b : string) :
  Str.contains c (a ++ b) = (Str.contains c a || Str.contains c b)%bool.
Proof.
  induction a as [|x a IH]; [reflexivity|].
  rewrite append_cons. cbn [Str.contains]. now rewrite IH, orb_assoc.
Qed.

Lemma split_free (c : ascii) (s : string) :
  Str.contains c s = false -> Str.split c s = [s].
Proof.
  induction s as [|a r IH]; cbn [Str.contains Str.split]; [reflexivity|].
  intros H. apply orb_false_iff in H as [Ha Hr].
  now rewrite Ha, (IH Hr).
Qed.

Lemma split_app_sep (c : ascii) (a b : string) :
  Str.contains c a = false ->
  Str.split c (a ++ String c b) = a :: Str.split c b.
Proof.
  induction a as [|x a IH]; intros H.
  - rewrite append_empty_l. cbn [Str.split]. now rewrite Ascii.eqb_refl.
  - cbn [Str.contains] in H. apply orb_false_iff in H as [Hx Ha].
    rewrite append_cons. cbn [Str.split]. now rewrite Hx, (IH Ha).
Qed.

(** Splitting at the separator undoes [join] when no field contains it. *)
Lemma split_join (c : ascii) (fields : list string) :
  fields <> [] ->
  List.Forall (fun f => Str.contains c f = false) fields ->
  Str.split c (Str.join (String c "") fields) = fields.
Proof.
  induction fields as [|f rest IH]; [congruence|].
  intros _ H. inversion H as [|? ? Hf Hrest]; subst.
  destruct rest as [|f' rest'].
  - cbn [Str.join]. now apply split_free.
  - change (Str.join (String c "") (f :: f' :: rest'))
      with (f ++ String c (Str.join (String c "") (f' :: rest'))).
    rewrite split_app_sep by assumption.
    f_equal. apply IH; [congruence|assumption].
Qed.

Lemma app_one {A} (l : list A) (x : A) (r : list A) :
  ((l ++ [x]) ++ r = l ++ x :: r)%list.
Proof. now rewrite <- List.app_assoc. Qed.

(** ** The manifest (lines 263-276) *)

Lemma escape_quotes_spec (p : string) : escape_quotes p = quote_chars p.
Proof.
  induction p as [|c r IH]; [reflexivity|].
  cbn [escape_quotes quote_chars]. unfold quote_char.
  destruct (Ascii.eqb c "'"); now rewrite IH.
Qed.

Lemma manifest_line_entry (p : string) : manifest_line p = manifest_entry p.
Proof.
  unfold manifest_line, manifest_entry, single_quoted.
  now rewrite escape_quotes_spec.
Qed.

Lemma read_quoted (p : string) :
  read_word true (quote_chars p ++ "'") = Some p.
Proof.
  induction p as [|c r IH]; [reflexivity|].
  cbn [quote_chars]. unfold quote_char.
  destruct (Ascii.eqb c "'") eqn:Hc.
  - apply Ascii.eqb_eq in Hc. subst c.
    rewrite !append_cons, append_empty_l. cbn. now rewrite IH.
  - rewrite !append_cons, append_empty_l. cbn [read_word].
    now rewrite Hc, IH.
Qed.

(** Reading a manifest line gives back the path it was made from. *)
Lemma read_entry_quoted (p : string) : read_entry (manifest_entry p) = Some p.
Proof.
  unfold read_entry, manifest_entry, single_quoted.
  rewrite !append_cons, append_empty_l. cbn. apply read_quoted.
Qed.

Lemma contains_quote_chars (p : string) :
  Str.contains newline_char (quote_chars p) = Str.contains newline_char p.
Proof.
  induction p as [|c r IH]; [reflexivity|].
  cbn [quote_chars Str.contains]. rewrite contains_app, IH.
  unfold quote_char. destruct (Ascii.eqb c "'") eqn:Hc.
  - apply Ascii.eqb_eq in Hc. subst c. reflexivity.
  - cbn [Str.contains]. now rewrite orb_false_r.
Qed.

Lemma entry_on_one_line (p : string) :
  Str.contains newline_char p = false ->
  Str.contains newline_char (manifest_entry p) = false.
Proof.
  intros Hp. unfold manifest_entry, single_quoted.
  rewrite !contains_app, contains_quote_chars, Hp. reflexivity.
Qed.

(** C2, as the code has it: the manifest is one entry per path, joined by
    line feeds in the order of the input; the entry of a path is the
    directive [file], a space, and the path between single quotes with each
    of its quotes rewritten as quote, backslash, quote, quote; reading an
    entry by that rule gives the path back; and when no path contains a
    line feed the lines of the manifest are exactly these entries. *)
Theorem manifest_has_one_quoted_entry_per_path (paths : list string) :
  listContent paths = Str.join newline (List.map manifest_entry paths)
  /\ List.length (List.map manifest_entry paths) = List.length paths
  /\ (forall i p, List.nth_error paths i = Some p ->
        List.nth_error (List.map manifest_entry paths) i
          = Some ("file " ++ single_quoted p)
        /\ read_entry (manifest_entry p) = Some p)
  /\ (paths <> [] ->
      List.Forall (fun p => Str.contains newline_char p = false) paths ->
      Str.split newline_char (listContent paths)
        = List.map manifest_entry paths).
Proof.
  assert (Hmap : List.map manifest_line paths = List.map manifest_entry paths).
  { apply List.map_ext. apply manifest_line_entry. }
  unfold listContent. rewrite Hmap.
  split; [reflexivity|]. split; [apply List.length_map|]. split.
  - intros i p Hp. split; [|apply read_entry_quoted].
    now rewrite List.nth_error_map, Hp.
  - intros Hne Hfree. apply split_join.
    + destruct paths; [congruence|discriminate].
    + apply List.Forall_map. eapply List.Forall_impl; [|exact Hfree].
      intros p Hp. now apply entry_on_one_line.
Qed.

Lemma manifest_has_one_quoted_entry_per_path_witness :
  Str.split newline_char (listContent Sample.paths)
  = [ "file '/app/tmp/concat-00f1.mp4'";
      "file '/app/tmp/concat-00f2.m'\''4'";
      "file '/app/tmp/concat-00f3.mp4'" ]
  /\ read_entry "file '/app/tmp/concat-00f2.m'\''4'"
     = Some "/app/tmp/concat-00f2.m'4".
Proof.
  destruct (manifest_has_one_quoted_entry_per_path Sample.paths)
    as (_ & _ & Hnth & Hlines).
  split.
  - rewrite Hlines; [reflexivity|discriminate|].
    repeat constructor.
  - exact (proj2 (Hnth 1%nat _ eq_refl)).
Defined.

(** C2 as worded: each line is the quoted path and nothing else.  It fails
    on any path, for want of the directive. *)
Lemma manifest_line_is_not_the_bare_quoted_path :
  listContent ["/app/tmp/concat-00f1.mp4"] = "file '/app/tmp/concat-00f1.mp4'"
  /\ Str.split newline_char (listContent ["/app/tmp/concat-00f1.mp4"])
     <> List.map single_quoted ["/app/tmp/concat-00f1.mp4"].
Proof. split; [reflexivity|discriminate]. Qed.

(** ** Runs of the handlers *)

Lemma get_nullish v k : Js.nullish v = true -> Js.get v k = inl TypeError.
Proof. unfold Js.get. now intros ->. Qed.

Lemma get_prop v k : Js.nullish v = false -> Js.get v k = inr (Js.prop v k).
Proof. unfold Js.get. now intros ->. Qed.

Ltac unfold_m :=
  unfold bind, ret, lift, throw, try_catch, emit, write_file, random_id,
         runFfmpeg, runFfprobe, makePublicPath, downloadToTemp in *.

Ltac calm_tac := repeat constructor.

Section Runs.

Variable cfg : config.
Variable E : env.

Ltac finish :=
  do 3 eexists; split; [reflexivity|];
  split; [first [cbn; reflexivity | cbn; symmetry; apply List.app_nil_r]|].

Lemma image_run req w :
  exists r evs w', image_convert_video cfg E req w = (inr r, w')
    /\ trace w' = (trace w ++ evs)%list /\ run ImageToVideo req r evs.
Proof.
  unfold image_convert_video.
  destruct (Js.nullish (body req)) eqn:Hb.
  - unfold_m. rewrite !get_nullish by assumption. cbn.
    finish. apply run_thrown. constructor.
  - unfold_m. rewrite !get_prop by assumption. cbn.
    destruct (Js.truthy (Js.prop (body req) "image_url")); cbn.
    + unfold Js.as_number.
      destruct (Js.convertible (Js.prop (body req) "length")); cbn;
        [|finish; apply run_thrown; constructor].
      destruct (Js.convertible (Js.prop (body req) "frame_rate")); cbn;
        [|finish; apply run_thrown; constructor].
      destruct (url_pathname E _) eqn:Hu; cbn.
      * destruct (http_get E _) eqn:Hg; cbn.
        -- destruct (ffmpeg E _ _) as [ok d] eqn:Hf. destruct ok; cbn; rewrite ?app_one.
           ++ finish. eapply run_published with (pre := [_; _; _]); [reflexivity|calm_tac|].
              cbn. eauto.
           ++ finish. eapply (run_engine_failed ImageToVideo) with (pre := [_; _; _; _]); [calm_tac|].
              cbn. eauto.
        -- rewrite ?app_one. finish. apply run_thrown. calm_tac.
      * finish. apply run_thrown. calm_tac.
    + finish. apply run_invalid.
Qed.

Lemma metadata_run req w :
  exists r evs w', media_metadata cfg E req w = (inr r, w')
    /\ trace w' = (trace w ++ evs)%list /\ run MediaMetadata req r evs.
Proof.
  unfold media_metadata.
  destruct (Js.nullish (body req)) eqn:Hb.
  - unfold_m. rewrite !get_nullish by assumption. cbn.
    finish. apply run_thrown. constructor.
  - unfold_m. rewrite !get_prop by assumption. cbn.
    destruct (Js.truthy (Js.prop (body req) "media_url")); cbn.
    + destruct (url_pathname E _) eqn:Hu; cbn.
      * destruct (http_get E _) eqn:Hg; cbn.
        -- destruct (ffprobe E _ _) as [|[data|]] eqn:Hf; cbn; rewrite ?app_one.
           ++ finish.
              eapply (run_engine_failed MediaMetadata) with (pre := [_; _; _]);
                [calm_tac|]. cbn. eexists. reflexivity.
           ++ unfold Js.get. destruct (Js.nullish data); cbn.
              ** finish. eapply run_probe_unusable with (pre := [_; _; _]);
                   [reflexivity|calm_tac|]. cbn. eexists. reflexivity.
              ** destruct (Js.nullish (Js.prop data "format")); cbn.
                 --- finish. eapply run_probe_unusable with (pre := [_; _; _]);
                       [reflexivity|calm_tac|]. cbn. eexists. reflexivity.
                 --- finish. eapply run_probed with (pre := [_; _; _]);
                       [reflexivity|calm_tac|]. cbn. eexists. reflexivity.
           ++ finish. eapply run_probe_unusable with (pre := [_; _; _]);
                [reflexivity|calm_tac|]. cbn. eexists. reflexivity.
        -- rewrite ?app_one. finish. apply run_thrown. calm_tac.
      * finish. apply run_thrown. calm_tac.
    + finish. apply run_invalid.
Qed.

Lemma trim_run req w :
  exists r evs w', video_trim cfg E req w = (inr r, w')
    /\ trace w' = (trace w ++ evs)%list /\ run VideoTrim req r evs.
Proof.
  unfold video_trim.
  destruct (Js.nullish (body req)) eqn:Hb.
  - unfold_m. rewrite !get_nullish by assumption. cbn.
    finish. apply run_thrown. constructor.
  - unfold_m. rewrite !get_prop by assumption. cbn.
    destruct (Js.truthy (Js.prop (body req) "video_url")); cbn.
    + destruct (url_pathname E _) eqn:Hu; cbn.
      * destruct (http_get E _) eqn:Hg; cbn.
        -- destruct (ffmpeg E _ _) as [ok d] eqn:Hf. destruct ok; cbn; rewrite ?app_one.
           ++ finish. eapply run_published with (pre := [_; _; _]); [reflexivity|calm_tac|].
              cbn. eauto.
           ++ finish. eapply (run_engine_failed VideoTrim) with (pre := [_; _; _; _]); [calm_tac|].
              cbn. eauto.
        -- rewrite ?app_one. finish. apply run_thrown. calm_tac.
      * finish. apply run_thrown. calm_tac.
    + finish. apply run_invalid.
Qed.

Lemma caption_run req w :
  exists r evs w', video_caption req w = (inr r, w')
    /\ trace w' = (trace w ++ evs)%list /\ run Caption req r evs.
Proof.
  unfold video_caption.
  destruct (Js.nullish (body req)) eqn:Hb.
  - unfold_m. rewrite !get_nullish by assumption. cbn.
    finish. apply run_thrown. constructor.
  - unfold_m. rewrite !get_prop by assumption. cbn.
    destruct (Js.truthy (Js.prop (body req) "video_url")); cbn.
    + finish. now apply run_echo.
    + finish. apply run_invalid.
Qed.

Lemma compose_run req w :
  exists r evs w', ffmpeg_compose cfg E req w = (inr r, w')
    /\ trace w' = (trace w ++ evs)%list /\ run Compose req r evs.
Proof.
  unfold ffmpeg_compose.
  destruct (Js.nullish (body req)) eqn:Hb.
  - unfold_m. rewrite !get_nullish by assumption. cbn.
    finish. apply run_thrown. constructor.
  - unfold_m. rewrite !get_prop by assumption. cbn.
    destruct (negb _ || _)%bool; cbn.
    { finish. apply run_invalid. }
    unfold Js.get.
    destruct (Js.nullish (Js.index _ 0)); cbn.
    { finish. apply run_thrown. constructor. }
    destruct (Js.nullish (Js.index _ 1)); cbn.
    { finish. apply run_thrown. constructor. }
    destruct (negb _ || _)%bool; cbn.
    { finish. apply run_invalid. }
    destruct (url_pathname E _) eqn:Hu; cbn.
    2:{ finish. apply run_thrown. calm_tac. }
    destruct (http_get E _) eqn:Hg; cbn.
    2:{ rewrite ?app_one. finish. apply run_thrown. calm_tac. }
    destruct (url_pathname E _) eqn:Hu2 in |- *; cbn.
    2:{ rewrite ?app_one. finish. apply run_thrown. calm_tac. }
    destruct (http_get E _) eqn:Hg2 in |- *; cbn.
    2:{ rewrite ?app_one. finish. apply run_thrown. calm_tac. }
    destruct (ffmpeg E _ _) as [ok d] eqn:Hf. destruct ok; cbn; rewrite ?app_one.
    + finish. eapply run_published with (pre := [_; _; _; _; _; _]); [reflexivity|calm_tac|].
      cbn. eauto.
    + finish. eapply (run_engine_failed Compose) with (pre := [_; _; _; _; _; _; _]); [calm_tac|].
      cbn. eauto.
Qed.

Lemma fetch_each_run items :
  forall acc w,
  exists res evs w', fetch_each cfg E items acc w = (res, w')
    /\ trace w' = (trace w ++ evs)%list /\ calm evs
    /\ forall paths, res = inr paths ->
        exists new, paths = (acc ++ new)%list /\ (new = [] -> evs = []).
Proof.
  induction items as [|item rest IH]; intros acc w.
  - exists (inr acc), [], w. cbn. repeat split.
    + symmetry. apply List.app_nil_r.
    + constructor.
    + intros paths [= <-]. exists []. split; [symmetry; apply List.app_nil_r|auto].
  - cbn [fetch_each]. unfold Js.get.
    destruct (Js.nullish item); unfold_m; cbn.
    { exists (inl TypeError), [], w. repeat split.
      - symmetry. apply List.app_nil_r.
      - constructor.
      - discriminate. }
    destruct (Js.truthy (Js.or (Js.prop item "video_url") item)); cbn.
    2:{ apply IH. }
    destruct (url_pathname E _) eqn:Hu; cbn.
    2:{ do 3 eexists. split; [reflexivity|]. cbn. repeat split.
        - symmetry. apply List.app_nil_r.
        - constructor.
        - discriminate. }
    destruct (http_get E _) eqn:Hg; cbn.
    2:{ rewrite ?app_one. do 3 eexists. split; [reflexivity|]. cbn. repeat split.
        - calm_tac.
        - discriminate. }
    rewrite ?app_one.
    match goal with |- context [fetch_each cfg E rest ?a ?w1] =>
      destruct (IH a w1) as (res & evs & w' & Heq & Htr & Hcalm & Hnew) end.
    rewrite Heq. exists res. eexists. exists w'. split; [reflexivity|].
    cbn in Htr. rewrite Htr. rewrite <- List.app_assoc. split; [reflexivity|].
    split.
    + cbn. repeat (constructor; [reflexivity|]). exact Hcalm.
    + intros paths Hp. destruct (Hnew paths Hp) as (new & -> & _).
      eexists. rewrite <- List.app_assoc. split; [reflexivity|]. discriminate.
Qed.

Lemma concatenate_run req w :
  exists r evs w', video_concatenate cfg E req w = (inr r, w')
    /\ trace w' = (trace w ++ evs)%list /\ run Concatenate req r evs.
Proof.
  unfold video_concatenate.
  destruct (Js.nullish (body req)) eqn:Hb.
  - unfold_m. rewrite !get_nullish by assumption. cbn.
    finish. apply run_thrown. constructor.
  - unfold bind at 1 2. unfold try_catch, lift. rewrite !get_prop by assumption.
    unfold ret at 1 2.
    destruct (negb _ || _)%bool.
    { unfold ret. finish. apply run_invalid. }
    unfold bind at 1. unfold random_id at 1. unfold bind at 1.
    match goal with |- context [fetch_each cfg E ?i ?a ?w1] =>
      destruct (fetch_each_run i a w1) as (res & evs & w' & Heq & Htr & Hcalm & Hnew) end.
    rewrite Heq. cbn in Htr. destruct res as [e|paths].
    { unfold ret. do 3 eexists. split; [reflexivity|]. split; [exact Htr|].
      apply run_thrown. exact Hcalm. }
    destruct (Hnew paths eq_refl) as (new & Hpaths & Hempty). cbn in Hpaths. subst paths.
    destruct new as [|p new'].
    { cbn. unfold ret. rewrite (Hempty eq_refl) in Htr.
      do 3 eexists. split; [reflexivity|]. split; [exact Htr|]. apply run_invalid. }
    cbn [List.length Nat.eqb]. unfold_m. unfold Js.as_string. cbn.
    destruct (Js.truthy (Js.prop (body req) "id")); cbn;
      [destruct (Js.convertible (Js.prop (body req) "id")); cbn|].
    2:{ rewrite Htr, ?app_one. do 3 eexists. split; [reflexivity|]. cbn.
        rewrite <- List.app_assoc. split; [reflexivity|]. apply run_thrown.
        apply List.Forall_app. split; [exact Hcalm|calm_tac]. }
    all: destruct (ffmpeg E _ _) as [ok d] eqn:Hf; destruct ok; cbn;
      rewrite Htr, ?app_one;
      do 3 eexists; (split; [reflexivity|]); cbn;
      rewrite <- List.app_assoc; (split; [reflexivity|]).
    1,3: match goal with |- run _ _ _ (?l ++ ?a :: ?rest)%list =>
           replace (l ++ a :: rest)%list with ((l ++ [a]) ++ rest)%list
             by (rewrite <- List.app_assoc; reflexivity) end;
         (eapply run_published; [reflexivity| |cbn; eauto]);
         apply List.Forall_app; (split; [exact Hcalm|calm_tac]).
    all: match goal with |- run _ _ _ (?l ++ [?a; ?b; ?c])%list =>
           replace (l ++ [a; b; c])%list with ((l ++ [a; b]) ++ [c])%list
             by (rewrite <- List.app_assoc; reflexivity) end;
         (eapply (run_engine_failed Concatenate); [|cbn; eauto]);
         apply List.Forall_app; (split; [exact Hcalm|calm_tac]).
Qed.

(** Every handler answers, and its answer and effects take one of the
    shapes of [run]. *)
Lemma handler_run k req w :
  exists r evs w', handler_of cfg E k req w = (inr r, w')
    /\ trace w' = (trace w ++ evs)%list /\ run k req r evs.
Proof.
  destruct k; cbn [handler_of].
  - apply image_run.
  - apply metadata_run.
  - apply trim_run.
  - apply compose_run.
  - apply concatenate_run.
  - apply caption_run.
Qed.
End Runs.

(** ** What a run tells *)

Lemma engine_failed_engine (e : event) :
  engine_failed e = true -> engine e = true.
Proof. destruct e as [| | | | |? []|? []]; cbn; congruence. Qed.

Lemma calm_no_failure (evs : list event) (e : event) :
  calm evs -> List.In e evs -> engine_failed e = true -> False.
Proof.
  intros Hcalm Hin Hf. apply engine_failed_engine in Hf.
  unfold calm in Hcalm. rewrite List.Forall_forall in Hcalm.
  specialize (Hcalm e Hin). congruence.
Qed.

Lemma calm_no_engine (evs : list event) (e : event) :
  calm evs -> List.In e evs -> engine e = true -> False.
Proof.
  intros Hcalm Hin Hf.
  unfold calm in Hcalm. rewrite List.Forall_forall in Hcalm.
  specialize (Hcalm e Hin). congruence.
Qed.

(** The handlers are functions: a run has one reply and one list of
    effects. *)
Lemma run_of (cfg : config) (E : env) (k : kind) (req : request)
    (w w' : world) (r : response) (evs : list event) :
  handler_of cfg E k req w = (inr r, w') ->
  trace w' = (trace w ++ evs)%list ->
  run k req r evs.
Proof.
  intros Hrun Htrace.
  destruct (handler_run cfg E k req w) as (r0 & evs0 & w0 & H0 & Ht0 & Hr0).
  rewrite Hrun in H0. injection H0 as <- <-.
  rewrite Htrace in Ht0. apply List.app_inv_head in Ht0. now subst evs0.
Qed.

(** ** C7: a failed engine is never advertised *)

(** C7: every job answers; when one of its engine invocations failed, the
    answer is the 500 of the handler's [catch] with its fixed message and
    nothing else; and for every kind but the caption stub, an answer that
    carries a [response] URL is a 200 whose last two effects are the
    allocation of the artifact and an engine run that ended well. *)
Theorem failed_engine_is_never_advertised
    (cfg : config) (E : env) (k : kind) (req : request) (w : world) :
  exists r evs w',
    handler_of cfg E k req w = (inr r, w')
    /\ trace w' = (trace w ++ evs)%list
    /\ ((exists e, List.In e evs /\ engine_failed e = true) ->
        r = status_json 500 (error_body (failure_message k))
        /\ advertised r = VUndefined)
    /\ (k <> Caption -> advertised r <> VUndefined ->
        status r = 200
        /\ exists pre abs rel args,
             evs = (pre ++ [AllocatedPublic abs rel; RanFfmpeg args true])%list
             /\ calm pre).
Proof.
  destruct (handler_run cfg E k req w) as (r & evs & w' & Hrun & Htrace & Hshape).
  exists r, evs, w'. split; [exact Hrun|]. split; [exact Htrace|].
  destruct Hshape as [msg|evs Hcalm|pre args Hcalm Hb|pre abs rel args more Hp Hcalm Hb
                     |pre args Hk Hcalm Hb|pre args d Hk Hcalm Hb|more Hk].
  - split; [intros (e & [] & _)|]. intros _ Hadv. now contradiction Hadv.
  - split; [intros _; now split|]. intros _ Hadv. now contradiction Hadv.
  - split; [intros _; now split|]. intros _ Hadv. now contradiction Hadv.
  - split.
    + intros (e & Hin & Hf). exfalso.
      apply List.in_app_or in Hin as [Hin|[<-|[<-|[]]]].
      * exact (calm_no_failure _ _ Hcalm Hin Hf).
      * discriminate.
      * discriminate.
    + intros _ _. split; [reflexivity|]. now exists pre, abs, rel, args.
  - split; [intros _; now split|]. intros _ Hadv. now contradiction Hadv.
  - split.
    + intros (e & Hin & Hf). exfalso.
      apply List.in_app_or in Hin as [Hin|[<-|[]]].
      * exact (calm_no_failure _ _ Hcalm Hin Hf).
      * discriminate.
    + intros _ Hadv. now contradiction Hadv.
  - split; [intros (e & [] & _)|]. intros Hne. now contradiction Hne.
Qed.

(** ** C9: the address of a published artifact *)

Lemma append_assoc (a b c : string) : (a ++ b) ++ c = a ++ b ++ c.
Proof.
  induction a as [|x a IH]; [reflexivity|].
  rewrite !append_cons. now rewrite IH.
Qed.

Lemma truthy_string (s : string) :
  Js.truthy (VStr s) = negb (Parse.is_empty s).
Proof. reflexivity. Qed.

(** [getBaseUrl] prefers the forwarded headers when they carry a value. *)
Lemma getBaseUrl_spec (req : request) :
  getBaseUrl req = scheme req ++ "://" ++ host req.
Proof.
  unfold getBaseUrl, scheme, host, supplied, header, Js.or.
  change (Str.lower "x-forwarded-proto") with "x-forwarded-proto".
  change (Str.lower "x-forwarded-host") with "x-forwarded-host".
  destruct (headers req !! "x-forwarded-proto") as [p|];
    destruct (headers req !! "x-forwarded-host") as [h|];
    rewrite ?truthy_string;
    try destruct (Parse.is_empty p); try destruct (Parse.is_empty h);
    reflexivity.
Qed.

(** C9, as the code has it: the URL a publishing job returns is
    scheme://host followed by the relative path it allocated, the scheme
    being the forwarded-protocol header when that is present with a value
    and the connection's own scheme otherwise, the host being the
    forwarded-host header when that is present with a value and the Host
    header otherwise. *)
Theorem artifact_url_is_base_plus_relative_path
    (cfg : config) (E : env) (k : kind) (req : request)
    (w w' : world) (r : response) (evs : list event) :
  handler_of cfg E k req w = (inr r, w') ->
  trace w' = (trace w ++ evs)%list ->
  publishes k = true ->
  status r = 200 ->
  exists pre abs rel args,
    evs = (pre ++ [AllocatedPublic abs rel; RanFfmpeg args true])%list
    /\ advertised r = VStr (scheme req ++ "://" ++ host req ++ rel).
Proof.
  intros Hrun Htrace Hpub Hok.
  pose proof (run_of _ _ _ _ _ _ _ _ Hrun Htrace) as Hshape.
  destruct Hshape as [msg|evs Hcalm|pre args Hcalm Hb|pre abs rel args more Hp Hcalm Hb
                     |pre args Hk Hcalm Hb|pre args d Hk Hcalm Hb|more Hk];
    try discriminate Hok; try (subst k; discriminate Hpub).
  exists pre, abs, rel, args. split; [reflexivity|].
  cbn. now rewrite getBaseUrl_spec, !append_assoc.
Qed.

(** ** C10: the defaults of the image job *)

Lemma falls_back_falsy (v : value) :
  falls_back v -> Num.truthy (Js.to_number v) = false.
Proof.
  intros [ |q Hq| | |s Hs]; cbn; try reflexivity.
  - unfold Num.round64. unfold Qeq in Hq. cbn in Hq.
    replace (Qnum q) with 0 by lia. reflexivity.
  - now rewrite Hs.
Qed.

(** C10: in every engine invocation of the image job, the duration argument
    is 20 whenever [Number(length)] is falsy and the filter carries 25 as
    frame count and frame rate whenever [Number(frame_rate)] is falsy; an
    omitted field, zero, [null], the empty string and a string that is not
    a number are all of that sort. *)
Theorem defaults_apply_when_coercion_is_falsy
    (cfg : config) (E : env) (req : request) (w w' : world) (r : response)
    (evs : list event) (args : list string) (ok : bool) :
  image_convert_video cfg E req w = (inr r, w') ->
  trace w' = (trace w ++ evs)%list ->
  List.In (RanFfmpeg args ok) evs ->
  (forall v, falls_back v -> Num.truthy (Js.to_number v) = false)
  /\ (Num.truthy (Js.to_number (Js.prop (body req) "length")) = false ->
      List.nth 5 args "" = "20")
  /\ (Num.truthy (Js.to_number (Js.prop (body req) "frame_rate")) = false ->
      List.nth 7 args ""
      = "zoompan=z='min(zoom+0.0008,1.3)':d=25:x='iw/2-(iw/zoom/2)':y='ih/2-(ih/zoom/2)',scale=1080:1920,framerate=25").
Proof.
  intros Hrun Htrace Hin.
  split; [exact falls_back_falsy|].
  pose proof (run_of cfg E ImageToVideo _ _ _ _ _ Hrun Htrace) as Hshape.
  assert (Hargs : built_for ImageToVideo (body req) args).
  { destruct Hshape as [msg|evs Hcalm|pre args0 Hcalm Hb
                       |pre abs rel args0 more Hp Hcalm Hb
                       |pre args0 Hk Hcalm Hb|pre args0 d Hk Hcalm Hb|more Hk];
      try discriminate.
    - destruct Hin.
    - exfalso. exact (calm_no_engine _ _ Hcalm Hin eq_refl).
    - apply List.in_app_or in Hin as [Hin|[Heq|[]]].
      + exfalso. exact (calm_no_engine _ _ Hcalm Hin eq_refl).
      + cbn in Heq. now injection Heq as <- _.
    - apply List.in_app_or in Hin as [Hin|[Heq|[Heq|[]]]].
      + exfalso. exact (calm_no_engine _ _ Hcalm Hin eq_refl).
      + discriminate.
      + now injection Heq as <- _. }
  destruct Hargs as (p & out & ->). unfold number_or, or_default.
  split; intros ->; reflexivity.
Qed.

(** A [length] that has no primitive value: [Number(length)] throws, and
    the job ends in its [catch] before anything is fetched. *)
Example length_without_a_primitive_value (w : world) :
  image_convert_video Demo.cfg Sample.E
    (Sample.image_request [("length", VObj [("toString", VNull)])]) w
  = (inr (status_json 500 (error_body "Failed to create video from image")),
     w).
Proof. reflexivity. Qed.

(** ** C6: [zoom_speed] is read and dropped *)

(** C6: two image requests whose bodies read alike at every name but
    [zoom_speed] run alike: same reply, same files, same effects, and so the
    same argument vector for the engine. *)
Theorem zoom_speed_is_ignored
    (cfg : config) (E : env) (req : request) (b1 b2 : value) (w : world) :
  (forall name, name <> "zoom_speed" -> Js.get b1 name = Js.get b2 name) ->
  image_convert_video cfg E (with_body req b1) w
  = image_convert_video cfg E (with_body req b2) w.
Proof.
  intros Hsame.
  assert (Hnull : Js.nullish b1 = Js.nullish b2).
  { specialize (Hsame "image_url" ltac:(discriminate)). unfold Js.get in Hsame.
    destruct (Js.nullish b1), (Js.nullish b2); congruence. }
  assert (Hprop : forall name, name <> "zoom_speed" ->
                    Js.nullish b1 = false ->
                    Js.prop b1 name = Js.prop b2 name).
  { intros name Hname H1. specialize (Hsame name Hname). unfold Js.get in Hsame.
    rewrite <- Hnull, H1 in Hsame. congruence. }
  unfold image_convert_video, getBaseUrl, header, body.
  cbn [payload with_body headers protocol].
  unfold Js.get. rewrite <- Hnull.
  destruct (Js.nullish b1) eqn:H1; [reflexivity|].
  rewrite !(Hprop "image_url"), !(Hprop "length"), !(Hprop "frame_rate"),
          !(Hprop "id") by (discriminate || reflexivity).
  reflexivity.
Qed.

(** ** C4: validation comes before any effect *)

Lemma dispatch_kind (cfg : config) (E : env) (k : kind) (req : request) :
  method req = "POST" -> path req = route_of k ->
  dispatch (routes cfg E) req = Some (handler_of cfg E k).
Proof.
  intros Hm Hp. unfold routes, kinds. cbn [List.map List.app dispatch].
  rewrite Hm, Hp. destruct k; reflexivity.
Qed.

Lemma route_not_under_files (k : kind) : under_files (route_of k) = false.
Proof. destruct k; reflexivity. Qed.

Lemma static_passes (cfg : config) (req : request) (w : world) :
  under_files (path req) = false -> serve_static cfg req w = None.
Proof. unfold serve_static. now intros ->. Qed.

(** For every kind, a request whose body lacks the field the handler tests
    first is answered with a 400 and the world is left as it was: nothing
    fetched, no manifest written, no engine run, no artifact path
    allocated.  The same holds for the request sent through the application
    to the route of the kind. *)
Lemma missing_field_is_rejected_before_any_io
    (cfg : config) (E : env) (k : kind) (req : request) (w : world) :
  Js.get (body req) (required_field k) = inr VUndefined ->
  (exists msg,
     handler_of cfg E k req w = (inr (status_json 400 (error_body msg)), w))
  /\ (method req = "POST" -> path req = route_of k ->
      key_accepted cfg req = true ->
      exists msg, app cfg E req w = (status_json 400 (error_body msg), w)).
Proof.
  intros Hmissing.
  assert (Hnull : Js.nullish (body req) = false).
  { unfold Js.get in Hmissing. now destruct (Js.nullish (body req)). }
  assert (Hprop : Js.prop (body req) (required_field k) = VUndefined).
  { unfold Js.get in Hmissing. rewrite Hnull in Hmissing. congruence. }
  assert (Hhandler : exists msg,
            handler_of cfg E k req w
            = (inr (status_json 400 (error_body msg)), w)).
  { destruct k; cbn [handler_of required_field] in *;
      unfold image_convert_video, media_metadata, video_trim, ffmpeg_compose,
             video_concatenate, video_caption;
      unfold bind, lift, try_catch; rewrite !get_prop by assumption;
      rewrite Hprop; eexists; reflexivity. }
  split; [exact Hhandler|].
  intros Hm Hp Hkey. destruct Hhandler as (msg & Hh). exists msg.
  unfold app. destruct (payload req) as [b|code] eqn:Hpay.
  - rewrite static_passes by (rewrite Hp; apply route_not_under_files).
    rewrite Hkey. unfold router.
    rewrite (dispatch_kind cfg E k req Hm Hp). now rewrite Hh.
  - unfold body in Hnull. rewrite Hpay in Hnull. discriminate.
Qed.

Example compose_without_inputs_is_rejected :
  app Demo.cfg Sample.E Sample.compose_without_inputs Demo.w0
  = (status_json 400 (error_body "inputs[video, audio] required"), Demo.w0).
Proof.
  destruct (missing_field_is_rejected_before_any_io
              Demo.cfg Sample.E Compose Sample.compose_without_inputs
              Demo.w0 eq_refl) as (_ & Happ).
  destruct (Happ eq_refl eq_refl eq_refl) as (msg & Hmsg).
  rewrite Hmsg. vm_compute in Hmsg. now injection Hmsg as <-.
Qed.

(** ** Entries that are [null] *)

(** An entry that has properties and reads as falsy is skipped. *)
Lemma fetch_each_skips (cfg : config) (E : env) (item : value)
    (rest : list value) (acc : list string) :
  Js.nullish item = false ->
  Js.truthy (Js.or (Js.prop item "video_url") item) = false ->
  fetch_each cfg E (item :: rest) acc = fetch_each cfg E rest acc.
Proof.
  intros Hnull Hfalsy. cbn [fetch_each].
  unfold Js.get. rewrite Hnull. unfold bind, lift, ret. now rewrite Hfalsy.
Qed.

(** Nothing but such entries: the job is refused with a 400. *)
Example concatenate_without_a_usable_entry (cfg : config) (E : env) (w : world) :
  fst (video_concatenate cfg E Sample.concatenate_nothing_usable w)
  = inr (status_json 400 (error_body "No valid video URLs")).
Proof. reflexivity. Qed.

(** A [null] entry is not skipped either: reading [item.video_url] throws,
    the [catch] answers 500, and the usable entry next to it is never
    fetched. *)
Lemma null_entry_fails_the_concatenation
    (cfg : config) (E : env) (w : world) :
  video_concatenate cfg E Sample.concatenate_null_entry w
  = (inr (status_json 500 (error_body "Failed to concatenate videos")),
     {| disk := disk w; drawn := S (drawn w); trace := trace w |}).
Proof. reflexivity. Qed.

(** Two entries with properties, one of them without [file_url]: a 400. *)
Lemma compose_without_file_url (cfg : config) (E : env) (req : request)
    (w : world) (first second : value) (more : list value) :
  Js.nullish (body req) = false ->
  Js.prop (body req) "inputs" = VArr (first :: second :: more) ->
  Js.nullish first = false -> Js.nullish second = false ->
  Js.truthy (Js.prop first "file_url") = false
  \/ Js.truthy (Js.prop second "file_url") = false ->
  ffmpeg_compose cfg E req w
  = (inr (status_json 400 (error_body "file_url missing in inputs")), w).
Proof.
  intros Hb Hin H1 H2 Hmiss. unfold ffmpeg_compose.
  unfold bind, lift, try_catch, ret, throw.
  rewrite get_prop by assumption. rewrite Hin.
  cbn [Js.is_array Js.items List.length negb orb Nat.ltb Nat.leb Js.index
       List.nth].
  rewrite !get_prop by assumption.
  destruct Hmiss as [-> | ->]; cbn [negb orb]; rewrite ?orb_true_r;
    reflexivity.
Qed.

(** C4, at an input that breaks it: [inputs[0]] has no [file_url], a
    required field, and [inputs[1]] is [null].  Reading [inputs[1].file_url]
    throws before the test that answers 400; the [catch] answers 500.
    Nothing was fetched, written, run or allocated. *)
Theorem missing_file_url_next_to_null_is_answered_500
    (cfg : config) (E : env) (w : world) :
  ffmpeg_compose cfg E Sample.compose_file_url_missing w
  = (inr (status_json 500 (error_body "Failed to compose audio+video")), w).
Proof. reflexivity. Qed.

(** C8, at an input that breaks it: [inputs[0]] is [null].  Reading its
    [file_url] throws before the test that answers 400, and the [catch]
    answers 500. *)
Theorem null_input_fails_compose_with_500
    (cfg : config) (E : env) (w : world) :
  ffmpeg_compose cfg E Sample.compose_null_input w
  = (inr (status_json 500 (error_body "Failed to compose audio+video")), w).
Proof. reflexivity. Qed.

(** ** C3: the shared secret *)

Lemma API_KEY_not_empty (cfg : config) : Parse.is_empty (API_KEY cfg) = false.
Proof.
  unfold API_KEY. destruct (env_API_KEY cfg) as [k|]; [|reflexivity].
  destruct (Parse.is_empty k) eqn:Hk; [reflexivity|exact Hk].
Qed.

(** The middleware lets a request through exactly when the header equals
    the configured secret. *)
Lemma key_accepted_iff (cfg : config) (req : request) :
  key_accepted cfg req = true <-> headers req !! "x-api-key" = Some (API_KEY cfg).
Proof.
  unfold key_accepted, header.
  change (Str.lower "x-api-key") with "x-api-key".
  destruct (headers req !! "x-api-key") as [k|]; [|split; discriminate].
  rewrite truthy_string. split.
  - intros H. rewrite negb_true_iff, orb_false_iff in H. destruct H as [_ H].
    rewrite negb_false_iff in H. apply String.eqb_eq in H. now subst.
  - intros [= ->]. rewrite API_KEY_not_empty, String.eqb_refl. reflexivity.
Qed.





(** ** C5: the formatted duration *)














(** ** The claims at sample requests *)

Lemma failed_engine_is_never_advertised_witness :
  exists r evs,
    fst Sample.trim_failure = inr r
    /\ trace (snd Sample.trim_failure) = evs
    /\ (exists e, List.In e evs /\ engine_failed e = true)
    /\ r = status_json 500 (error_body "Failed to trim video")
    /\ advertised r = VUndefined.
Proof.
  destruct (failed_engine_is_never_advertised
              Demo.cfg (Demo.E false VNull) VideoTrim Sample.behind_proxy
              Demo.w0) as (r & evs & w' & Hrun & Htrace & Hfail & _).
  exists r, evs.
  assert (Hout : Sample.trim_failure = (inr r, w')) by exact Hrun.
  rewrite Hout. cbn [fst snd].
  split; [reflexivity|]. split; [exact Htrace|].
  assert (Hev : exists e, List.In e evs /\ engine_failed e = true).
  { vm_compute in Hrun. injection Hrun as _ <-. cbn in Htrace. subst evs.
    eexists. split; [do 4 right; left; reflexivity|reflexivity]. }
  split; [exact Hev|]. exact (Hfail Hev).
Defined.

Lemma artifact_url_is_base_plus_relative_path_witness :
  exists pre abs rel args,
    trace (snd Sample.trim_outcome)
    = (pre ++ [AllocatedPublic abs rel; RanFfmpeg args true])%list
    /\ VStr "http://media.example.com/files/trim-out-0000000000000001.mp4"
       = VStr (scheme Sample.behind_proxy ++ "://"
               ++ host Sample.behind_proxy ++ rel).
Proof.
  apply (artifact_url_is_base_plus_relative_path
           Demo.cfg Sample.E VideoTrim Sample.behind_proxy Demo.w0
           (snd Sample.trim_outcome)
           (json (VObj [("response",
                         VStr "http://media.example.com/files/trim-out-0000000000000001.mp4")]))
           (trace (snd Sample.trim_outcome)));
    reflexivity.
Defined.

(** C9 as worded, with "present" read as "sent": a forwarded-protocol
    header that is sent empty is passed over for the connection's scheme. *)
Lemma empty_forwarded_header_is_passed_over :
  headers Sample.behind_proxy !! "x-forwarded-proto" = Some ""
  /\ fst Sample.trim_outcome
     = inr (json (VObj [("response",
                         VStr "http://media.example.com/files/trim-out-0000000000000001.mp4")]))
  /\ (scheme_if_sent Sample.behind_proxy ++ "://"
      ++ host_if_sent Sample.behind_proxy
      ++ "/files/trim-out-0000000000000001.mp4")
     = "://media.example.com/files/trim-out-0000000000000001.mp4"
  /\ advertised (json (VObj [("response",
                         VStr "http://media.example.com/files/trim-out-0000000000000001.mp4")]))
     <> VStr (scheme_if_sent Sample.behind_proxy ++ "://"
              ++ host_if_sent Sample.behind_proxy
              ++ "/files/trim-out-0000000000000001.mp4").
Proof.
  split; [reflexivity|]. split; [reflexivity|]. split; [reflexivity|].
  vm_compute. discriminate.
Qed.

Lemma defaults_apply_when_coercion_is_falsy_witness :
  List.In (RanFfmpeg Sample.image_defaults_args true)
          (trace (snd Sample.image_outcome))
  /\ falls_back (VStr "abc")
  /\ List.nth 5 Sample.image_defaults_args "" = "20"
  /\ List.nth 7 Sample.image_defaults_args ""
     = "zoompan=z='min(zoom+0.0008,1.3)':d=25:x='iw/2-(iw/zoom/2)':y='ih/2-(ih/zoom/2)',scale=1080:1920,framerate=25".
Proof.
  assert (Hin : List.In (RanFfmpeg Sample.image_defaults_args true)
                        (trace (snd Sample.image_outcome))).
  { do 4 right. left. reflexivity. }
  destruct (defaults_apply_when_coercion_is_falsy
              Demo.cfg Sample.E Sample.image_defaults Demo.w0
              (snd Sample.image_outcome)
              (json (VObj [("response",
                            VStr "http://api.test/files/scene-0000000000000001.mp4");
                           ("id", VNull)]))
              (trace (snd Sample.image_outcome))
              Sample.image_defaults_args true
              eq_refl eq_refl Hin) as (_ & Hlength & Hrate).
  split; [exact Hin|]. split; [now apply fb_not_numeric|].
  split; [exact (Hlength eq_refl)|exact (Hrate eq_refl)].
Defined.

Lemma zoom_speed_is_ignored_witness :
  image_convert_video Demo.cfg Sample.E
    (with_body (Sample.image_request [])
       (Sample.image_body [("zoom_speed", VNum (Fin 3))]))
    Demo.w0
  = image_convert_video Demo.cfg Sample.E
      (with_body (Sample.image_request [])
         (Sample.image_body [("zoom_speed", VStr "fast")]))
      Demo.w0.
Proof.
  apply zoom_speed_is_ignored.
  intros name Hname. unfold Js.get, Sample.image_body.
  cbn [Js.nullish Js.prop Js.assoc].
  destruct (String.eqb name "image_url"); [reflexivity|].
  destruct (String.eqb name "zoom_speed") eqn:Hz; [|reflexivity].
  apply String.eqb_eq in Hz. contradiction.
Defined.

(** ** C1: entries without a URL *)

(** On entries that have properties, the loop is the fetch of the entries
    that resolve to a value: the others leave no mark. *)
Lemma fetch_each_resolved (cfg : config) (E : env) (items : list value) :
  List.Forall (fun item => Js.nullish item = false) items ->
  forall acc w,
    fetch_each cfg E items acc w = fetch_all cfg E (resolved items) acc w.
Proof.
  induction 1 as [|item rest Hitem _ IH]; intros acc w; [reflexivity|].
  cbn [fetch_each]. unfold Js.get. rewrite Hitem.
  unfold resolved. cbn [List.map List.filter]. fold (resolved rest).
  unfold bind at 1, lift, ret. fold (entry_url item).
  destruct (Js.truthy (entry_url item)); cbn [negb fetch_all].
  - unfold bind.
    destruct (downloadToTemp cfg E (entry_url item) "concat" w) as [[e|p] w1];
      [reflexivity|apply IH].
  - apply IH.
Qed.











(* ===================================================================== *)
(** * Further properties of the code *)
(* ===================================================================== *)

(** ** The secret (lines 12 and 27-33) *)

(** X1: the middleware calls [next()] exactly when the [x-api-key] header
    equals the configured secret; the secret is never empty, an unset or
    empty [API_KEY] variable giving the built-in one. *)
Theorem secret_check_is_exact (cfg : config) (req : request) :
  (key_accepted cfg req = true
   <-> headers req !! "x-api-key" = Some (API_KEY cfg))
  /\ API_KEY cfg <> ""
  /\ (env_API_KEY cfg = None \/ env_API_KEY cfg = Some "" ->
      API_KEY cfg = "local-dev-key-123").
Proof.
  split; [apply key_accepted_iff|]. split.
  - intros Hempty. pose proof (API_KEY_not_empty cfg) as H.
    rewrite Hempty in H. discriminate.
  - unfold API_KEY. intros [-> | ->]; reflexivity.
Qed.

(** ** The route table (lines 105-324) *)

Lemma dispatch_not_post (cfg : config) (E : env) (req : request) :
  method req <> "POST" ->
  dispatch (routes cfg E) req = None
  \/ dispatch (routes cfg E) req = Some root.
Proof.
  intros Hne. apply String.eqb_neq in Hne.
  unfold routes, kinds. cbn [List.map List.app dispatch].
  assert (Hm : method_match "POST" (method req) = false).
  { unfold method_match. now rewrite Hne. }
  rewrite !Hm. cbn [andb].
  destruct (method_match "GET" (method req) && route_match "/" (path req))%bool;
    auto.
Qed.

(** X2: a request whose method is not POST leaves the world as it was,
    whatever its path, headers and body: only the POST routes do work. *)
Theorem only_post_changes_the_world
    (cfg : config) (E : env) (req : request) (w : world) :
  method req <> "POST" -> snd (app cfg E req w) = w.
Proof.
  intros Hne. unfold app.
  destruct (payload req); [|reflexivity].
  destruct (serve_static cfg req w); [reflexivity|].
  destruct (key_accepted cfg req); [|reflexivity].
  unfold router.
  destruct (dispatch_not_post cfg E req Hne) as [-> | ->].
  - destruct (_ && _)%bool; reflexivity.
  - reflexivity.
Qed.

Lemma only_post_changes_the_world_witness :
  app Demo.cfg Sample.E More.status_probe Demo.w0
  = ({| status := 404; sent := Page |}, Demo.w0).
Proof.
  pose proof (only_post_changes_the_world Demo.cfg Sample.E
                More.status_probe Demo.w0 ltac:(discriminate)) as Hworld.
  destruct (app Demo.cfg Sample.E More.status_probe Demo.w0) as [r w'] eqn:Happ.
  cbn [snd] in Hworld. subst w'.
  vm_compute in Happ. now injection Happ as <-.
Defined.

(** ** Answers of the handlers (the try/catch of every route) *)

(** X3: whenever a handler answers, the answer is a 200, or a 400 or 500
    whose body is an object with the single member [error]; a 500 carries
    the fixed message of the route and nothing of the exception. *)
Theorem an_answer_is_200_400_or_500
    (cfg : config) (E : env) (k : kind) (req : request)
    (w w' : world) (r : response) :
  handler_of cfg E k req w = (inr r, w') ->
  (status r = 200
   \/ (status r = 400 \/ status r = 500)
      /\ exists msg, sent r = Json (error_body msg))
  /\ (status r = 500 -> sent r = Json (error_body (failure_message k))).
Proof.
  intros Hrun.
  destruct (handler_run cfg E k req w) as (r0 & evs & w0 & H0 & _ & Hshape).
  rewrite Hrun in H0. injection H0 as <- <-.
  destruct Hshape; cbn [status sent json status_json];
    (split; [|try discriminate; try reflexivity]); eauto 6.
Qed.

Lemma an_answer_is_200_400_or_500_witness :
  fst Sample.trim_failure
  = inr (status_json 500 (error_body "Failed to trim video"))
  /\ sent (status_json 500 (error_body "Failed to trim video"))
     = Json (error_body (failure_message VideoTrim)).
Proof.
  assert (Hrun : handler_of Demo.cfg (Demo.E false VNull) VideoTrim
                   Sample.behind_proxy Demo.w0
                 = (inr (status_json 500 (error_body "Failed to trim video")),
                    snd Sample.trim_failure)).
  { vm_compute. reflexivity. }
  split; [exact (f_equal fst Hrun)|].
  exact (proj2 (an_answer_is_200_400_or_500 Demo.cfg (Demo.E false VNull)
                  VideoTrim Sample.behind_proxy Demo.w0
                  (snd Sample.trim_failure) _ Hrun) eq_refl).
Defined.

(** X4: a 400 from any handler means that no effect took place: nothing
    was opened, requested, stored, written, allocated or run. *)
Theorem bad_request_means_no_effect
    (cfg : config) (E : env) (k : kind) (req : request)
    (w w' : world) (r : response) :
  handler_of cfg E k req w = (inr r, w') ->
  status r = 400 ->
  trace w' = trace w /\ exists msg, r = status_json 400 (error_body msg).
Proof.
  intros Hrun H400.
  destruct (handler_run cfg E k req w) as (r0 & evs & w0 & H0 & Htrace & Hshape).
  rewrite Hrun in H0. injection H0 as <- <-.
  destruct Hshape; try discriminate H400.
  rewrite List.app_nil_r in Htrace. split; [exact Htrace|]. now exists msg.
Qed.

Lemma bad_request_means_no_effect_witness :
  exists w',
    handler_of Demo.cfg Sample.E Concatenate
      Sample.concatenate_nothing_usable Demo.w0
    = (inr (status_json 400 (error_body "No valid video URLs")), w')
    /\ trace w' = trace Demo.w0.
Proof.
  eexists. split; [reflexivity|].
  exact (proj1 (bad_request_means_no_effect Demo.cfg Sample.E Concatenate
                  Sample.concatenate_nothing_usable Demo.w0 _ _
                  eq_refl eq_refl)).
Defined.

(** ** The caption stub (lines 304-320) *)

(** X5: the caption stub never touches the world; given a [video_url] it
    answers with that very value, the [id] (or [null] when the [id] is
    falsy) and its note. *)
Theorem caption_is_a_pure_echo (req : request) (w : world) :
  snd (video_caption req w) = w
  /\ (Js.nullish (body req) = false ->
      Js.truthy (Js.prop (body req) "video_url") = true ->
      fst (video_caption req w)
      = inr (json (VObj [("response", Js.prop (body req) "video_url");
                         ("id", Js.or (Js.prop (body req) "id") VNull);
                         ("note",
                          VStr "Captioning stub: extend later if needed.")]))).
Proof.
  unfold video_caption, try_catch, bind, lift, Js.get.
  destruct (Js.nullish (body req)); cbn [throw ret].
  - split; [reflexivity|discriminate].
  - destruct (Js.truthy (Js.prop (body req) "video_url")); cbn [negb].
    + split; [reflexivity|reflexivity].
    + split; [reflexivity|discriminate].
Qed.

Lemma caption_is_a_pure_echo_witness :
  fst (video_caption More.caption Demo.w0)
  = inr (json (VObj [("response", VStr "https://cdn.test/a.mp4");
                     ("id", VNull);
                     ("note",
                      VStr "Captioning stub: extend later if needed.")])).
Proof.
  exact (proj2 (caption_is_a_pure_echo More.caption Demo.w0)
               eq_refl eq_refl).
Defined.

(** ** Temporary resources (lines 76-93) *)

Lemma split_has_no_separator (c : ascii) (s : string) :
  List.Forall (fun f => Str.contains c f = false) (Str.split c s).
Proof.
  induction s as [|a r IH]; cbn [Str.split].
  - repeat constructor.
  - destruct (Ascii.eqb a c) eqn:Hac.
    + constructor; [reflexivity|exact IH].
    + destruct (Str.split c r) as [|f fs].
      * repeat constructor. cbn. now rewrite Hac.
      * inversion IH as [|? ? Hf Hfs]; subst.
        constructor; [|exact Hfs]. cbn. now rewrite Hac, Hf.
Qed.

Lemma last_keeps {A} (P : A -> Prop) (l : list A) (d : A) :
  List.Forall P l -> P d -> P (List.last l d).
Proof.
  intros Hl Hd. induction Hl as [|x l Hx Hl IH]; [exact Hd|].
  cbn [List.last]. destruct l; [exact Hx|exact IH].
Qed.

Lemma filter_keeps {A} (P : A -> Prop) (f : A -> bool) (l : list A) :
  List.Forall P l -> List.Forall P (List.filter f l).
Proof.
  intros Hl. induction Hl as [|x l Hx Hl IH]; [constructor|].
  cbn [List.filter]. destruct (f x); [constructor|]; assumption.
Qed.

Lemma last_dot_within (c : ascii) (s e : string) :
  Path.last_dot s = Some e ->
  Str.contains c s = false -> Str.contains c e = false.
Proof.
  revert e. induction s as [|a r IH]; intros e; [discriminate|].
  cbn [Path.last_dot Str.contains]. intros He Hs.
  apply orb_false_iff in Hs as [Ha Hr].
  destruct (Path.last_dot r) as [e'|].
  - injection He as <-. now apply IH.
  - destruct (Ascii.eqb a "."); [|discriminate].
    injection He as <-. cbn [Str.contains]. now rewrite Ha, Hr.
Qed.

Lemma basename_has_no_slash (p : string) :
  Str.contains "/" (Path.basename p) = false.
Proof.
  unfold Path.basename.
  apply (last_keeps (fun f => Str.contains "/" f = false));
    [|reflexivity].
  apply filter_keeps. apply split_has_no_separator.
Qed.

(** [path.extname] never reaches across a directory separator. *)
Lemma extname_has_no_slash (p : string) :
  Str.contains "/" (Path.extname p) = false.
Proof.
  unfold Path.extname.
  destruct (Path.last_dot (Path.basename p)) as [e|] eqn:He; [|reflexivity].
  destruct (_ =? _)%nat; [reflexivity|].
  destruct (String.eqb _ _); [reflexivity|].
  exact (last_dot_within "/" _ _ He (basename_has_no_slash p)).
Qed.

Lemma temp_ext_has_no_slash (E : env) (url : value) :
  Str.contains "/" (temp_ext E url) = false.
Proof.
  unfold temp_ext. destruct (url_pathname E _) as [pn|]; [|reflexivity].
  unfold Js.or. destruct (Js.truthy (VStr (Path.extname pn))); [|reflexivity].
  apply extname_has_no_slash.
Qed.

(** What a download that succeeds has done. *)
Lemma download_success (cfg : config) (E : env) (url : value)
    (prefix : string) (w w' : world) (p : string) :
  downloadToTemp cfg E url prefix w = (inr p, w') ->
  exists data,
    http_get E (Js.to_string url) = Some data
    /\ p = temp_path cfg E prefix (drawn w) url
    /\ w' = {| disk := <[p := data]> (<[p := ""]> (disk w));
               drawn := S (drawn w);
               trace := (trace w ++ [OpenedTemp p;
                                     Requested (Js.to_string url);
                                     Stored p])%list |}.
Proof.
  unfold downloadToTemp, temp_path, temp_name, temp_ext.
  unfold bind, random_id, emit, write_file, ret, throw. cbn.
  destruct (url_pathname E (Js.to_string url)) as [pn|]; [|discriminate].
  cbn. destruct (http_get E (Js.to_string url)) as [data|]; [|discriminate].
  cbn. rewrite !app_one. intros [= <- <-]. now exists data.
Qed.

(** X6: a download that succeeds has put the body of the response in a
    file directly inside the tmp directory: the name is prefix, dash,
    random id and an extension, and holds no directory separator when
    prefix and id hold none, whatever the URL; no other file changed, one
    random id was used, and the effects are open, request, store. *)
Theorem download_lands_in_tmp
    (cfg : config) (E : env) (url : value) (prefix : string)
    (w w' : world) (p : string) :
  downloadToTemp cfg E url prefix w = (inr p, w') ->
  p = TMP_DIR cfg ++ "/" ++ temp_name E prefix (drawn w) url
  /\ (Str.contains "/" prefix = false ->
      Str.contains "/" (random_hex E (drawn w)) = false ->
      Str.contains "/" (temp_name E prefix (drawn w) url) = false)
  /\ (exists data, http_get E (Js.to_string url) = Some data
                   /\ disk w' !! p = Some data)
  /\ (forall q, q <> p -> disk w' !! q = disk w !! q)
  /\ drawn w' = S (drawn w)
  /\ trace w' = (trace w ++ [OpenedTemp p; Requested (Js.to_string url);
                             Stored p])%list.
Proof.
  intros Hrun.
  destruct (download_success _ _ _ _ _ _ _ Hrun) as (data & Hget & Hp & ->).
  split; [exact Hp|]. split.
  - intros Hprefix Hid. unfold temp_name.
    rewrite !contains_app, Hprefix, Hid, temp_ext_has_no_slash. reflexivity.
  - split.
    + exists data. split; [exact Hget|]. cbn [disk].
      apply lookup_insert_eq.
    + split; [|split; reflexivity].
      intros q Hq. cbn [disk].
      rewrite !lookup_insert_ne by congruence. reflexivity.
Qed.

Lemma download_lands_in_tmp_witness :
  exists w',
    downloadToTemp Demo.cfg Sample.E (VStr "https://cdn.test/a/b.tar.gz?x=1")
      "image" Demo.w0
    = (inr "/app/tmp/image-0000000000000000.gz", w')
    /\ disk w' !! "/app/tmp/image-0000000000000000.gz" = Some "bytes".
Proof.
  exists (snd (downloadToTemp Demo.cfg Sample.E
                 (VStr "https://cdn.test/a/b.tar.gz?x=1") "image"
                 Demo.w0)).
  split; [reflexivity|].
  destruct (download_lands_in_tmp Demo.cfg Sample.E
              (VStr "https://cdn.test/a/b.tar.gz?x=1") "image"
              Demo.w0 _ "/app/tmp/image-0000000000000000.gz" eq_refl)
    as (_ & _ & (data & Hget & Hdisk) & _).
  injection Hget as <-. exact Hdisk.
Defined.

(** X7: a download that fails is not tidied up.  When the URL does not
    parse, one random id is used and nothing else happens; when the request
    fails, the file opened for it stays behind, empty. *)
Theorem failed_download_is_not_cleaned_up
    (cfg : config) (E : env) (url : value) (prefix : string) (w : world) :
  (url_pathname E (Js.to_string url) = None ->
   downloadToTemp cfg E url prefix w = (inl InvalidUrl, after_draw w))
  /\ (forall pathname,
        url_pathname E (Js.to_string url) = Some pathname ->
        http_get E (Js.to_string url) = None ->
        exists w',
          downloadToTemp cfg E url prefix w = (inl RequestFailed, w')
          /\ disk w' !! temp_path cfg E prefix (drawn w) url = Some ""
          /\ trace w'
             = (trace w ++ [OpenedTemp (temp_path cfg E prefix (drawn w) url);
                            Requested (Js.to_string url)])%list).
Proof.
  unfold downloadToTemp, temp_path, temp_name, temp_ext.
  unfold bind, random_id, emit, write_file, ret, throw, after_draw.
  split.
  - intros ->. reflexivity.
  - intros pn -> ->. cbn. eexists. split; [reflexivity|]. cbn.
    split; [apply lookup_insert_eq|]. now rewrite app_one.
Qed.

Lemma failed_download_is_not_cleaned_up_witness :
  exists w',
    downloadToTemp Demo.cfg More.offline (VStr "https://cdn.test/a.mp4")
      "trim-in" Demo.w0
    = (inl RequestFailed, w')
    /\ disk w' !! "/app/tmp/trim-in-0000000000000000.mp4" = Some "".
Proof.
  destruct (proj2 (failed_download_is_not_cleaned_up Demo.cfg More.offline
                     (VStr "https://cdn.test/a.mp4") "trim-in" Demo.w0)
                  "/a.mp4" eq_refl eq_refl) as (w' & Hrun & Hdisk & _).
  exists w'. split; [exact Hrun|exact Hdisk].
Defined.

(** ** The order of the fetches (lines 263-269) *)

Lemma fetch_all_numbered (cfg : config) (E : env) (urls : list value) :
  forall acc w paths w',
    fetch_all cfg E urls acc w = (inr paths, w') ->
    paths = (acc ++ numbered_paths cfg E (drawn w) urls)%list
    /\ drawn w' = (drawn w + List.length urls)%nat.
Proof.
  induction urls as [|url rest IH]; intros acc w paths w' Hrun.
  - cbn in Hrun. injection Hrun as <- <-. cbn.
    now rewrite List.app_nil_r, Nat.add_0_r.
  - cbn [fetch_all] in Hrun. unfold bind in Hrun.
    destruct (downloadToTemp cfg E url "concat" w) as [[e|p] w1] eqn:Hdl;
      [discriminate|].
    destruct (download_success _ _ _ _ _ _ _ Hdl) as (data & _ & Hp & Hw1).
    apply IH in Hrun. destruct Hrun as [-> Hdrawn].
    rewrite Hw1 in Hdrawn |- *. cbn [drawn] in *.
    cbn [numbered_paths List.length]. rewrite <- List.app_assoc, Hp.
    split; [reflexivity|lia].
Qed.

(** X8: when the loop over [video_urls] comes through, the paths it
    collected are those of the entries that resolve to a value, in the
    order of the array, named with consecutive random ids; so the manifest
    lists the inputs in array order. *)
Theorem fetched_paths_follow_the_entries
    (cfg : config) (E : env) (items : list value)
    (w w' : world) (paths : list string) :
  List.Forall (fun item => Js.nullish item = false) items ->
  fetch_each cfg E items [] w = (inr paths, w') ->
  paths = numbered_paths cfg E (drawn w) (resolved items)
  /\ drawn w' = (drawn w + List.length (resolved items))%nat
  /\ listContent paths
     = Str.join newline
         (List.map manifest_line
            (numbered_paths cfg E (drawn w) (resolved items))).
Proof.
  intros Hprops Hrun.
  rewrite (fetch_each_resolved cfg E items Hprops) in Hrun.
  apply fetch_all_numbered in Hrun. destruct Hrun as [-> Hdrawn].
  cbn [List.app]. repeat split. exact Hdrawn.
Qed.

Lemma fetched_paths_follow_the_entries_witness :
  fst (fetch_each Demo.cfg Sample.E Sample.mixed_entries [] Demo.w0)
  = inr (numbered_paths Demo.cfg Sample.E 0 (resolved Sample.mixed_entries))
  /\ numbered_paths Demo.cfg Sample.E 0 (resolved Sample.mixed_entries)
     = ["/app/tmp/concat-0000000000000000.mp4";
        "/app/tmp/concat-0000000000000001.mp4"].
Proof.
  split; [|reflexivity].
  destruct (fetch_each Demo.cfg Sample.E Sample.mixed_entries [] Demo.w0)
    as [[e|paths] w'] eqn:Hrun.
  - vm_compute in Hrun. discriminate Hrun.
  - cbn [fst]. f_equal.
    exact (proj1 (fetched_paths_follow_the_entries Demo.cfg Sample.E
                    Sample.mixed_entries Demo.w0 w' paths
                    ltac:(repeat constructor) Hrun)).
Defined.

(** ** The probe (lines 53-74) *)


(** ** The arguments of the trim job (lines 188-194) *)

(** X11: in every engine invocation of the trim job the cut starts at the
    given [start], or at 00:00:00 when [start] is missing or falsy; [-to]
    and the given [end] follow exactly when [end] is truthy; then come the
    input and a stream copy, nine arguments in all with an end and seven
    without. *)
Theorem trim_arguments
    (cfg : config) (E : env) (req : request) (w w' : world) (r : response)
    (evs : list event) (args : list string) (ok : bool) :
  video_trim cfg E req w = (inr r, w') ->
  trace w' = (trace w ++ evs)%list ->
  List.In (RanFfmpeg args ok) evs ->
  List.nth 0 args "" = "-ss"
  /\ List.nth 1 args ""
     = (if Js.truthy (Js.prop (body req) "start")
        then Js.to_string (Js.prop (body req) "start") else "00:00:00")
  /\ (Js.truthy (Js.prop (body req) "end") = true ->
      List.length args = 9%nat
      /\ List.nth 2 args "" = "-to"
      /\ List.nth 3 args "" = Js.to_string (Js.prop (body req) "end")
      /\ List.nth 4 args "" = "-i"
      /\ List.nth 6 args "" = "-c" /\ List.nth 7 args "" = "copy")
  /\ (Js.truthy (Js.prop (body req) "end") = false ->
      List.length args = 7%nat
      /\ List.nth 2 args "" = "-i"
      /\ List.nth 4 args "" = "-c" /\ List.nth 5 args "" = "copy").
Proof.
  intros Hrun Htrace Hin.
  pose proof (run_of cfg E VideoTrim _ _ _ _ _ Hrun Htrace) as Hshape.
  assert (Hargs : built_for VideoTrim (body req) args).
  { destruct Hshape as [msg|evs Hcalm|pre args0 Hcalm Hb
                       |pre abs rel args0 more Hp Hcalm Hb
                       |pre args0 Hk Hcalm Hb|pre args0 d Hk Hcalm Hb|more Hk];
      try discriminate.
    - destruct Hin.
    - exfalso. exact (calm_no_engine _ _ Hcalm Hin eq_refl).
    - apply List.in_app_or in Hin as [Hin|[Heq|[]]].
      + exfalso. exact (calm_no_engine _ _ Hcalm Hin eq_refl).
      + cbn in Heq. now injection Heq as <- _.
    - apply List.in_app_or in Hin as [Hin|[Heq|[Heq|[]]]].
      + exfalso. exact (calm_no_engine _ _ Hcalm Hin eq_refl).
      + discriminate.
      + now injection Heq as <- _. }
  destruct Hargs as (p & out & ->). unfold trim_args, Js.or.
  split; [reflexivity|]. split.
  - destruct (Js.truthy (Js.prop (body req) "start")); reflexivity.
  - split; intros ->; repeat split.
Qed.

Lemma trim_arguments_witness :
  List.In (RanFfmpeg More.trim_open_end_args true)
          (trace (snd (video_trim Demo.cfg Sample.E More.trim_open_end
                         Demo.w0)))
  /\ List.nth 1 More.trim_open_end_args "" = "00:00:00"
  /\ List.length More.trim_open_end_args = 7%nat.
Proof.
  assert (Hin : List.In (RanFfmpeg More.trim_open_end_args true)
                  (trace (snd (video_trim Demo.cfg Sample.E
                                 More.trim_open_end Demo.w0)))).
  { do 4 right. left. reflexivity. }
  destruct (trim_arguments Demo.cfg Sample.E More.trim_open_end Demo.w0
              (snd (video_trim Demo.cfg Sample.E More.trim_open_end Demo.w0))
              (json (VObj [("response",
                            VStr "http://api.test/files/trim-out-0000000000000001.mp4")]))
              _ More.trim_open_end_args true eq_refl eq_refl Hin)
    as (_ & Hstart & _ & Hopen).
  split; [exact Hin|]. split; [exact Hstart|].
  exact (proj1 (Hopen eq_refl)).
Defined.

(** ** Escaping (line 275) *)

Lemma length_escape_quotes (p : string) :
  String.length (escape_quotes p)
  = (String.length p + 3 * quotes p)%nat.
Proof.
  induction p as [|c r IH]; [reflexivity|].
  cbn [escape_quotes quotes String.length].
  destruct (Ascii.eqb c "'").
  - rewrite !append_cons, append_empty_l. cbn [String.length]. lia.
  - cbn [String.length]. lia.
Qed.

Lemma no_quotes_iff (p : string) :
  quotes p = 0%nat <-> Str.contains "'" p = false.
Proof.
  induction p as [|c r IH]; [easy|].
  cbn [quotes Str.contains]. destruct (Ascii.eqb c "'"); cbn [orb].
  - split; [lia|discriminate].
  - rewrite Nat.add_0_l. exact IH.
Qed.

(** X12: escaping lengthens a path by three characters for each of its
    quotes and leaves it as it is exactly when it has none, as is the case
    for the names the service makes up from hex digits. *)
Theorem escaping_touches_only_quotes (p : string) :
  String.length (escape_quotes p) = (String.length p + 3 * quotes p)%nat
  /\ (escape_quotes p = p <-> Str.contains "'" p = false)
  /\ (Str.contains "'" p = false -> manifest_line p = "file '" ++ p ++ "'").
Proof.
  split; [apply length_escape_quotes|].
  assert (Hnone : Str.contains "'" p = false -> escape_quotes p = p).
  { induction p as [|c r IH]; [reflexivity|].
    cbn [Str.contains escape_quotes]. intros H.
    apply orb_false_iff in H as [Hc Hr]. now rewrite Hc, (IH Hr). }
  split.
  - split; [|exact Hnone].
    intros Hsame. apply no_quotes_iff.
    pose proof (length_escape_quotes p) as Hlen. rewrite Hsame in Hlen. lia.
  - intros H. unfold manifest_line. now rewrite (Hnone H).
Qed.

Lemma escaping_touches_only_quotes_witness :
  manifest_line "/app/tmp/concat-00f1.mp4" = "file '/app/tmp/concat-00f1.mp4'".
Proof.
  exact (proj2 (proj2 (escaping_touches_only_quotes
                         "/app/tmp/concat-00f1.mp4")) eq_refl).
Defined.

(** ** From a job to the file it published *)

Ltac refuse :=
  let H := fresh in
  let Hs := fresh in
  intros H Hs; injection H as <- _; discriminate Hs.







(** ** The concatenation job (lines 261-296) *)

(** What a concatenation that answers 200 has done. *)
Lemma concatenate_success
    (cfg : config) (E : env) (req : request) (w w' : world) (r : response) :
  video_concatenate cfg E req w = (inr r, w') ->
  status r = 200 ->
  let id := Js.prop (body req) "id" in
  let manifest :=
    Path.join (TMP_DIR cfg) ("concat-" ++ random_hex E (drawn w) ++ ".txt") in
  let out :=
    Path.join (PUBLIC_DIR cfg) (artifact_name E (concat_prefix id) w') in
  (exists paths w1 d0,
     fetch_each cfg E (Js.items (Js.prop (body req) "video_urls")) []
       (after_draw w) = (inr paths, w1)
     /\ paths <> []
     /\ d0 !! manifest = Some (listContent paths)
     /\ ffmpeg E d0 (concat_args manifest out) = (true, disk w'))
  /\ advertised r
     = VStr (getBaseUrl req ++ "/files/"
             ++ artifact_name E (concat_prefix id) w')
  /\ echoed_id r = Js.or id VNull.
Proof.
  unfold video_concatenate, try_catch, Js.get.
  destruct (Js.nullish (body req)); [cbn; refuse|].
  unfold bind at 1 2. unfold lift, ret at 1 2.
  destruct (negb _ || _)%bool; [unfold ret; refuse|].
  unfold bind at 1. unfold random_id at 1. unfold bind at 1.
  fold (after_draw w).
  destruct (fetch_each cfg E _ [] _) as [[e|paths] w1] eqn:Hfetch;
    [unfold ret; refuse|].
  destruct paths as [|p paths']; [cbn; refuse|].
  cbn [List.length Nat.eqb].
  unfold bind, emit, write_file, makePublicPath, random_id, runFfmpeg, ret,
         lift, throw, Js.as_string, concat_prefix.
  cbn -[listContent].
  destruct (Js.truthy (Js.prop (body req) "id")); cbn -[listContent];
    [destruct (Js.convertible (Js.prop (body req) "id")); cbn -[listContent];
       [|refuse]|].
  all: destruct (ffmpeg E _ _) as [ok d] eqn:Hf; destruct ok; cbn [fst snd];
    [|refuse];
    intros [= <- <-] _; cbn zeta; (split; [|split; reflexivity]);
    exists (p :: paths'), w1; eexists; (split; [reflexivity|]);
    (split; [discriminate|]);
    (split; [|exact Hf]); apply lookup_insert_eq.
Qed.

(** X14: a concatenation whose [id] and random ids hold no [/] (so that
    the names made of them are single path segments) and that answers 200
    has run the engine in concat mode on the manifest that was just
    written: manifest and output are files directly inside the tmp and the
    public directory; the file given after [-i] holds the lines of the
    fetched paths at the moment the engine starts; the output is named
    after the [id] when there is one and [concat-out] otherwise; the URL
    returned ends in that name and the [id] is echoed, as [null] when it
    is falsy. *)
Theorem concatenation_runs_on_its_manifest
    (cfg : config) (E : env) (req : request) (w w' : world) (r : response) :
  video_concatenate cfg E req w = (inr r, w') ->
  status r = 200 ->
  let id := Js.prop (body req) "id" in
  let list_name := "concat-" ++ random_hex E (drawn w) ++ ".txt" in
  let out_name := artifact_name E (concat_prefix id) w' in
  Str.contains "/" (concat_prefix id) = false ->
  Str.contains "/" (random_hex E (drawn w)) = false ->
  Str.contains "/" (random_hex E (Nat.pred (drawn w'))) = false ->
  let manifest := Path.join (TMP_DIR cfg) list_name in
  let out := Path.join (PUBLIC_DIR cfg) out_name in
  Str.contains "/" list_name = false
  /\ Str.contains "/" out_name = false
  /\ (exists paths w1 d0,
        fetch_each cfg E (Js.items (Js.prop (body req) "video_urls")) []
          (after_draw w) = (inr paths, w1)
        /\ paths <> []
        /\ d0 !! manifest = Some (listContent paths)
        /\ ffmpeg E d0 (concat_args manifest out) = (true, disk w'))
  /\ advertised r = VStr (getBaseUrl req ++ "/files/" ++ out_name)
  /\ echoed_id r = Js.or id VNull.
Proof.
  intros Hrun Hok id list_name out_name Hid Hhex Hhex' manifest out.
  split.
  { unfold list_name. rewrite !contains_app, Hhex. reflexivity. }
  split.
  { unfold out_name, artifact_name. rewrite !contains_app, Hid, Hhex'.
    reflexivity. }
  exact (concatenate_success cfg E req w w' r Hrun Hok).
Qed.

Lemma concatenation_runs_on_its_manifest_witness :
  advertised
    (json (VObj [("response",
                  VStr "http://api.test/files/concat-reel-0000000000000003.mp4");
                 ("id", VStr "reel")]))
  = VStr (getBaseUrl More.concatenate_named ++ "/files/"
          ++ artifact_name Sample.E (concat_prefix (VStr "reel"))
               (snd More.concatenate_outcome)).
Proof.
  assert (Hrun : video_concatenate Demo.cfg Sample.E More.concatenate_named
                   Demo.w0
                 = (inr (json (VObj [("response",
                                      VStr "http://api.test/files/concat-reel-0000000000000003.mp4");
                                     ("id", VStr "reel")])),
                    snd More.concatenate_outcome)).
  { vm_compute. reflexivity. }
  assert (Hhex : Str.contains "/"
                   (random_hex Sample.E
                      (Nat.pred (drawn (snd More.concatenate_outcome))))
                 = false).
  { vm_compute. reflexivity. }
  exact (proj1 (proj2 (proj2 (proj2
           (concatenation_runs_on_its_manifest Demo.cfg Sample.E
              More.concatenate_named Demo.w0
              (snd More.concatenate_outcome) _ Hrun eq_refl
              eq_refl eq_refl Hhex))))).
Defined.

(** ** The compose job (lines 213-237) *)

(** X15: the compose job looks at the first two inputs only: requests whose
    [inputs] start with the same two entries run alike, whatever follows
    them. *)
Theorem compose_ignores_further_inputs
    (cfg : config) (E : env) (req : request) (b1 b2 : value)
    (first second : value) (more1 more2 : list value) (w : world) :
  Js.nullish b1 = false -> Js.nullish b2 = false ->
  Js.prop b1 "inputs" = VArr (first :: second :: more1) ->
  Js.prop b2 "inputs" = VArr (first :: second :: more2) ->
  ffmpeg_compose cfg E (with_body req b1) w
  = ffmpeg_compose cfg E (with_body req b2) w.
Proof.
  intros Hn1 Hn2 H1 H2.
  unfold ffmpeg_compose, getBaseUrl, header, body.
  cbn [payload with_body headers protocol].
  unfold bind at 1 5. unfold lift at 1 4.
  rewrite !get_prop by assumption. rewrite H1, H2. reflexivity.
Qed.

Lemma compose_ignores_further_inputs_witness :
  ffmpeg_compose Demo.cfg Sample.E
    (with_body More.compose_request (More.compose_body [])) Demo.w0
  = ffmpeg_compose Demo.cfg Sample.E
      (with_body More.compose_request
         (More.compose_body [VNull; VStr "https://cdn.test/extra.mp4"]))
      Demo.w0.
Proof.
  exact (compose_ignores_further_inputs Demo.cfg Sample.E
           More.compose_request
           (More.compose_body [])
           (More.compose_body [VNull; VStr "https://cdn.test/extra.mp4"])
           (VObj [("file_url", VStr "https://cdn.test/a.mp4")])
           (VObj [("file_url", VStr "https://cdn.test/voice.mp3")])
           [] [VNull; VStr "https://cdn.test/extra.mp4"] Demo.w0
           eq_refl eq_refl eq_refl eq_refl).
Defined.

(** ** The numbers of the image job (lines 113-128) *)

(** X16: in every engine invocation of the image job a [length] whose
    numeric coercion is truthy is passed on as that number, and so is a
    [frame_rate], in both places of the filter; no range is checked.  The
    other arguments are fixed: one looped input, libx264 and yuv420p. *)
Theorem numeric_fields_are_passed_on
    (cfg : config) (E : env) (req : request) (w w' : world) (r : response)
    (evs : list event) (args : list string) (ok : bool) :
  image_convert_video cfg E req w = (inr r, w') ->
  trace w' = (trace w ++ evs)%list ->
  List.In (RanFfmpeg args ok) evs ->
  let length := Js.to_number (Js.prop (body req) "length") in
  let rate := Js.to_number (Js.prop (body req) "frame_rate") in
  (Num.truthy length = true -> List.nth 5 args "" = Num.to_string length)
  /\ (Num.truthy rate = true ->
      List.nth 7 args ""
      = "zoompan=z='min(zoom+0.0008,1.3)':d=" ++ Num.to_string rate
        ++ ":x='iw/2-(iw/zoom/2)':y='ih/2-(ih/zoom/2)',scale=1080:1920,framerate="
        ++ Num.to_string rate)
  /\ List.length args = 13%nat
  /\ List.firstn 3 args = ["-loop"; "1"; "-i"]
  /\ List.firstn 4 (List.skipn 8 args)
     = ["-c:v"; "libx264"; "-pix_fmt"; "yuv420p"].
Proof.
  intros Hrun Htrace Hin.
  pose proof (run_of cfg E ImageToVideo _ _ _ _ _ Hrun Htrace) as Hshape.
  assert (Hargs : built_for ImageToVideo (body req) args).
  { destruct Hshape as [msg|evs Hcalm|pre args0 Hcalm Hb
                       |pre abs rel args0 more Hp Hcalm Hb
                       |pre args0 Hk Hcalm Hb|pre args0 d Hk Hcalm Hb|more Hk];
      try discriminate.
    - destruct Hin.
    - exfalso. exact (calm_no_engine _ _ Hcalm Hin eq_refl).
    - apply List.in_app_or in Hin as [Hin|[Heq|[]]].
      + exfalso. exact (calm_no_engine _ _ Hcalm Hin eq_refl).
      + cbn in Heq. now injection Heq as <- _.
    - apply List.in_app_or in Hin as [Hin|[Heq|[Heq|[]]]].
      + exfalso. exact (calm_no_engine _ _ Hcalm Hin eq_refl).
      + discriminate.
      + now injection Heq as <- _. }
  destruct Hargs as (p & out & ->). unfold number_or, or_default. cbn zeta.
  split; [intros ->; reflexivity|].
  split; [|repeat split].
  intros ->. cbn [image_args List.nth]. unfold image_filter.
  cbn [Str.join]. rewrite !append_assoc. reflexivity.
Qed.

Lemma numeric_fields_are_passed_on_witness :
  List.In (RanFfmpeg More.image_numeric_args true)
          (trace (snd (image_convert_video Demo.cfg Sample.E
                         More.image_numeric Demo.w0)))
  /\ List.nth 5 More.image_numeric_args "" = "7.5".
Proof.
  assert (Hin : List.In (RanFfmpeg More.image_numeric_args true)
                  (trace (snd (image_convert_video Demo.cfg Sample.E
                                 More.image_numeric Demo.w0)))).
  { do 4 right. left. reflexivity. }
  destruct (numeric_fields_are_passed_on Demo.cfg Sample.E
              More.image_numeric Demo.w0
              (snd (image_convert_video Demo.cfg Sample.E
                      More.image_numeric Demo.w0))
              (json (VObj [("response",
                            VStr "http://api.test/files/scene-0000000000000001.mp4");
                           ("id", VNull)]))
              _ More.image_numeric_args true eq_refl eq_refl Hin)
    as (Hlength & _).
  split; [exact Hin|]. exact (Hlength eq_refl).
Defined.
